(** * ReflectEvo, [train/train_DPO.py]: the data path of the DPO driver

    The script reads a JSON-Lines file of self-reflection records, turns
    every row into a preference pair (prompt, chosen, rejected), splits the
    pairs 90/10 with a fixed seed and hands them to the trainer.  This file
    embeds that data path, the command-line step that selects the input file
    and the choice of the checkpoint to resume from.

    Python values are embedded as a small inductive type, dict literals as
    association lists in insertion order, raised exceptions as the left
    summand of a result type.  The libraries the script calls (pandas,
    scikit-learn, argparse) are not part of the repository; each is embedded
    as the documented behaviour of the one call the script makes, and the
    random generator of the split stays abstract. *)

From Stdlib Require Import String Ascii.
From stdpp Require Import gmap strings list fin_maps.

Set Warnings "-register-all".
Open Scope string_scope.

(** ** Python values and exceptions *)

Module Py.

(** A cell of the loaded frame: the [str] of the JSON record, or the float
    [nan] that pandas puts where a record has no such key. *)
Inductive cell : Type :=
  | CStr (s : string)
  | CNaN.

(** The values the formatter builds: cells, [list] and [dict] literals. *)
Inductive value : Type :=
  | VStr (s : string)
  | VNaN
  | VList (items : list value)
  | VDict (entries : list (string * value)).

(** The exceptions the modelled code can raise. *)
Inductive exn : Type :=
  | KeyError (key : string)
  | ValueError (msg : string)
  | IndexError
  | FileNotFoundError (path : string).

Inductive result (A : Type) : Type :=
  | Ok (a : A)
  | Raise (e : exn).

Arguments Ok {A} a.
Arguments Raise {A} e.

Definition bind {A B : Type} (r : result A) (k : A → result B) : result B :=
  match r with
  | Ok a => k a
  | Raise e => Raise e
  end.

Notation "'let!' x ':=' r 'in' k" := (bind r (fun x => k))
  (at level 10, x name, r at level 100, k at level 200, only parsing).

(** [format(c, "")], which an f-string field applies to its value: a [str]
    is inserted unchanged, the float nan prints as [nan]. *)
Definition format (c : cell) : string :=
  match c with
  | CStr s => s
  | CNaN => "nan"
  end.

(** A cell stored into a dict literal is the same Python object. *)
Definition of_cell (c : cell) : value :=
  match c with
  | CStr s => VStr s
  | CNaN => VNaN
  end.

(** [d[k]] on a dict held as an association list. *)
Fixpoint dict_get (k : string) (d : list (string * value)) : option value :=
  match d with
  | [] => None
  | (k', v) :: d' => if String.eqb k k' then Some v else dict_get k d'
  end.

Definition keys (d : list (string * value)) : list string := d.*1.

(** [v[k]] for a dict value, [v[i]] for a list value. *)
Definition field (k : string) (v : value) : option value :=
  match v with
  | VDict d => dict_get k d
  | _ => None
  end.

Definition item (i : nat) (v : value) : option value :=
  match v with
  | VList l => l !! i
  | _ => None
  end.

End Py.

Import Py.

(** ** The preference-pair formatter (lines 51-58 and 104-117) *)

Module Formatter.

(** A row handed out by [df.iterrows()]: a Series, indexed by the column
    labels of the frame. *)
Abbreviation row := (gmap string cell).

(** [row[k]]: the label must exist, otherwise pandas raises [KeyError]. *)
Definition getitem (r : row) (k : string) : result cell :=
  match r !! k with
  | Some v => Ok v
  | None => Raise (KeyError k)
  end.

Definition newline : string := String (ascii_of_nat 10) EmptyString.

Definition instruction : string :=
  "You are an advanced reasoning agent that can improve based on self-reflection. "
  ++ "You will be given a previous reasoning trial in which you were given a question to answer. "
  ++ "You were unsuccessful in answering the question. In a few sentences, Diagnose a possible reason for failure and devise a new, concise, high-level plan that aims to mitigate the same failure. Use complete sentences."
  ++ newline ++ newline.

(** [build_user_prompt(row)]: the three literals and the two f-strings are
    concatenated left to right, so [row['question']] is read first. *)
Definition build_user_prompt (r : row) : result string :=
  let! q := getitem r "question" in
  let! t := getitem r "first_trial_reasoning" in
  Ok (instruction
      ++ "Question: " ++ format q ++ newline
      ++ "Previous trial and your incorrect solution: " ++ format t).

Definition turn (content : value) (role : string) : value :=
  VDict [("content", content); ("role", VStr role)].

(** The body of the loop at lines 106-117: the dict appended for one row. *)
Definition format_row (r : row) : result value :=
  let! user_input := build_user_prompt r in
  let! c := getitem r "reflection_chosen" in
  let! j := getitem r "reflection_rejected" in
  Ok (VDict
        [("prompt", VStr user_input);
         ("chosen", VList [turn (VStr user_input) "user"; turn (of_cell c) "assistant"]);
         ("rejected", VList [turn (VStr user_input) "user"; turn (of_cell j) "assistant"])]).

(** The loop itself: rows are visited in frame order, the first exception
    ends the run. *)
Fixpoint format_rows (rows : list row) : result (list value) :=
  match rows with
  | [] => Ok []
  | r :: rows' =>
      let! d := format_row r in
      let! ds := format_rows rows' in
      Ok (d :: ds)
  end.

End Formatter.

(** ** Loading the file (line 101) and the formatted frame (line 119) *)

Module Frame.
Import Formatter.

(** One line of the input file: a JSON object whose values are strings. *)
Abbreviation record := (gmap string string).

Definition required_fields : list string :=
  ["question"; "first_trial_reasoning"; "reflection_chosen"; "reflection_rejected"].

(** [pd.read_json(path, lines=True)] builds the frame from the list of the
    parsed objects: its columns are the keys that occur in any record, and a
    record without a key gets the float nan in that column.

    pandas then tries to read every column as numbers: a column all of whose
    values read as numbers is turned into an int64 or float64 column, and
    [df.iterrows()] may widen such cells further.  Cells of that kind are
    not embedded.  What follows gives the labels of every frame, and the
    cells of the columns that pandas keeps as text; the theorems that speak
    of the contents of cells are stated for such columns
    ([Vocabulary.text_columns]). *)
Definition columns (recs : list record) : gset string := ⋃ (dom <$> recs).

Definition row_of (cols : gset string) (rec : record) : row :=
  (CStr <$> rec) ∪ gset_to_gmap CNaN cols.

Definition frame_rows (recs : list record) : list row :=
  row_of (columns recs) <$> recs.

(** The file system as far as the script sees it: the records of the file
    at a path, when there is one.  Without a file pandas raises; whether it
    is [FileNotFoundError] or, where the string is first tried as literal
    JSON, [ValueError] depends on its version, and nothing below rests on
    which it is. *)
Definition read_json (fs : string → option (list record)) (path : string)
    : result (list row) :=
  match fs path with
  | Some recs => Ok (frame_rows recs)
  | None => Raise (FileNotFoundError path)
  end.

(** Lines 104-117 on the loaded frame. *)
Definition formatted_data (recs : list record) : result (list value) :=
  format_rows (frame_rows recs).

(** [pd.DataFrame(formatted_data)]: one row per dict, labelled by the
    default index 0, 1, ... *)
Definition DataFrame (data : list value) : list (nat * value) :=
  imap (λ i d, (i, d)) data.

End Frame.

(** ** The train/test split (line 120) *)

Module Split.

(** What [random_state] may be: nothing (the global generator is used), an
    integer seed (a generator of its own is seeded with it), or a generator. *)
Inductive random_state (rng : Type) : Type :=
  | RsNone
  | RsInt (seed : Z)
  | RsInstance (g : rng).

Arguments RsNone {rng}.
Arguments RsInt {rng} seed.
Arguments RsInstance {rng} g.

Section with_generator.

(** numpy's generator stays abstract: its states, the state a seed gives,
    and [rng.permutation(n)], a shuffle of [0 .. n-1]. *)
Context {rng : Type}.
Variable RandomState : Z → rng.
Variable permutation : rng → nat → list nat.

Definition check_random_state (global : rng) (rs : random_state rng) : rng :=
  match rs with
  | RsNone => global
  | RsInt seed => RandomState seed
  | RsInstance g => g
  end.

(** [ceil(test_size * n_samples)] for the fraction [num/den]; on the
    double nearest to 0.1 the product rounds to the same integer for every
    frame that fits in memory. *)
Definition ceil_fraction (num den n : nat) : nat := (n * num + (den - 1)) / den.

(** [_validate_shuffle_split] with a float [test_size] strictly between 0
    and 1 and no [train_size]: the sizes, or [ValueError] when the train
    set would be empty. *)
Definition validate_shuffle_split (n_samples num den : nat) : result (nat * nat) :=
  let n_test := ceil_fraction num den n_samples in
  let n_train := n_samples - n_test in
  if (n_train =? 0)%nat
  then Raise (ValueError "the resulting train set will be empty")
  else Ok (n_train, n_test).

(** The same check inside [ShuffleSplit], now on the integer sizes. *)
Definition validate_sizes (n_samples n_train n_test : nat) : result unit :=
  if ((n_samples <=? n_test) || (n_test =? 0))%nat then Raise (ValueError "test_size")
  else if ((n_samples <=? n_train) || (n_train =? 0))%nat then Raise (ValueError "train_size")
  else Ok tt.

(** [ShuffleSplit._iter_indices], first split: the head of one shuffle is
    the test set, the next [n_train] indices are the train set. *)
Definition iter_indices (g : rng) (n_samples n_train n_test : nat)
    : list nat * list nat :=
  let perm := permutation g n_samples in
  let ind_test := take n_test perm in
  let ind_train := take n_train (drop n_test perm) in
  (ind_train, ind_test).

(** [df.iloc[indices]]: positions out of range raise. *)
Definition iloc {A : Type} (df : list A) (indices : list nat) : result (list A) :=
  match mapM (λ i, df !! i) indices with
  | Some rows => Ok rows
  | None => Raise IndexError
  end.

(** [train_test_split(df, test_size=num/den, random_state=rs)]. *)
Definition train_test_split {A : Type} (global : rng) (df : list A)
    (num den : nat) (rs : random_state rng) : result (list A * list A) :=
  let n_samples := length df in
  let! sizes := validate_shuffle_split n_samples num den in
  let '(n_train, n_test) := sizes in
  let! _ := validate_sizes n_samples n_train n_test in
  let g := check_random_state global rs in
  let '(train, test) := iter_indices g n_samples n_train n_test in
  let! train_df := iloc df train in
  let! test_df := iloc df test in
  Ok (train_df, test_df).

(** Lines 94 and 119-120: [set_seed(training_args.seed)] has put the
    global generator into the state of the training seed; the split is
    asked for a tenth of the rows under the seed 42. *)
Definition main_split (training_seed : Z) (data : list value)
    : result (list (nat * value) * list (nat * value)) :=
  train_test_split (RandomState training_seed) (Frame.DataFrame data) 1 10 (RsInt 42).

End with_generator.

End Split.

(** ** Which checkpoint to resume from (lines 267-272) *)

Module Resume.

Definition select_checkpoint (resume_from_checkpoint last_checkpoint : option string)
    : option string :=
  let checkpoint := None in
  match resume_from_checkpoint with
  | Some configured => Some configured
  | None =>
      match last_checkpoint with
      | Some detected => Some detected
      | None => checkpoint
      end
  end.

End Resume.

(** ** The command line (lines 62-65 and 100-101) *)

Module Cli.

(** The two actions of [extra_parser]: the help action every parser gets and
    the one of [--data_path]. *)
Inductive action : Type :=
  | Help
  | DataPath.

(** [parser._option_string_actions], in order of registration. *)
Definition option_string_actions : list (string * action) :=
  [("-h", Help); ("--help", Help); ("--data_path", DataPath)].

Fixpoint lookup_action (s : string) (table : list (string * action)) : option action :=
  match table with
  | [] => None
  | (o, a) :: table' => if String.eqb s o then Some a else lookup_action s table'
  end.

(** [s.split('=', 1)]: the text before the first [=] and, when there is
    one, the text after it. *)
Fixpoint split_eq (s : string) : string * option string :=
  match s with
  | EmptyString => (EmptyString, None)
  | String c s' =>
      if Ascii.eqb c "="
      then (EmptyString, Some s')
      else let '(before, after) := split_eq s' in (String c before, after)
  end.

Fixpoint contains (c : ascii) (s : string) : bool :=
  match s with
  | EmptyString => false
  | String c' s' => Ascii.eqb c c' || contains c s'
  end.

(** The digits 0-9.  Python's [\d] also matches the decimal digits outside
    ASCII; an argument written with those is read here as an unknown
    option where argparse reads a negative number, which changes nothing
    for an argument that stands alone (it is set aside either way); right
    after [--data_path] argparse takes it as the path where the embedding
    exits. *)
Definition is_digit (c : ascii) : bool :=
  let n := nat_of_ascii c in (48 <=? n)%nat && (n <=? 57)%nat.

Fixpoint all_digits (s : string) : bool :=
  match s with
  | EmptyString => true
  | String c s' => is_digit c && all_digits s'
  end.

Definition digits1 (s : string) : bool :=
  match s with
  | EmptyString => false
  | _ => all_digits s
  end.

(** [\d*\.\d+] on a whole string. *)
Fixpoint digits_dot_digits1 (s : string) : bool :=
  match s with
  | EmptyString => false
  | String c s' =>
      if Ascii.eqb c "." then digits1 s'
      else is_digit c && digits_dot_digits1 s'
  end.

(** [$] also matches before one final newline. *)
Fixpoint chomp (s : string) : string :=
  match s with
  | EmptyString => EmptyString
  | String c EmptyString => if Ascii.eqb c (ascii_of_nat 10) then EmptyString else s
  | String c s' => String c (chomp s')
  end.

(** [parser._negative_number_matcher]: [^-\d+$|^-\d*\.\d+$]. *)
Definition negative_number (s : string) : bool :=
  match s with
  | String c body =>
      Ascii.eqb c "-"
      && (digits1 body || digits1 (chomp body)
          || digits_dot_digits1 body || digits_dot_digits1 (chomp body))
  | EmptyString => false
  end.

(** [_get_option_tuples]: the registered options an argument abbreviates,
    each with the explicit value the argument carries. *)
Definition get_option_tuples (arg : string) : list (action * option string) :=
  match arg with
  | String c0 (String c1 _) =>
      if Ascii.eqb c0 "-" && Ascii.eqb c1 "-" then
        let '(option_prefix, explicit_arg) := split_eq arg in
        omap (λ '(o, a),
                if String.prefix option_prefix o then Some (a, explicit_arg) else None)
             option_string_actions
      else if Ascii.eqb c0 "-" then
        let short_option_prefix := String.substring 0 2 arg in
        let short_explicit_arg := String.substring 2 (String.length arg - 2) arg in
        omap (λ '(o, a),
                if String.eqb o short_option_prefix then Some (a, Some short_explicit_arg)
                else if String.prefix arg o then Some (a, None)
                else None)
             option_string_actions
      else []
  | _ => []
  end.

(** How [_parse_optional] reads one argument. *)
Inductive kind : Type :=
  | Positional
  | Optional (a : option action) (explicit_arg : option string)
  | Ambiguous.

Definition parse_optional (arg : string) : kind :=
  match arg with
  | EmptyString => Positional
  | String c rest =>
      if negb (Ascii.eqb c "-") then Positional
      else
        match lookup_action arg option_string_actions with
        | Some a => Optional (Some a) None
        | None =>
            match rest with
            | EmptyString => Positional
            | _ =>
                let '(option_string, explicit_arg) := split_eq arg in
                match (if contains "=" arg
                       then lookup_action option_string option_string_actions
                       else None) with
                | Some a => Optional (Some a) explicit_arg
                | None =>
                    match get_option_tuples arg with
                    | _ :: _ :: _ => Ambiguous
                    | [(a, e)] => Optional (Some a) e
                    | [] =>
                        if negative_number arg then Positional
                        else if contains " " arg then Positional
                        else Optional None None
                    end
                end
            end
        end
  end.

(** What [parse_known_args] comes to: the namespace (only [data_path]) with
    the arguments left over, or [SystemExit], which both [parser.error] and
    the help action raise. *)
Inductive outcome : Type :=
  | Parsed (data_path : string) (remaining : list string)
  | SystemExit.

(** After the loop: [--data_path] is required. *)
Definition finish (data_path : option string) (extras : list string) : outcome :=
  match data_path with
  | Some p => Parsed p extras
  | None => SystemExit
  end.

(** The consuming loop of [_parse_known_args], left to right.  [data_path]
    is the namespace so far, [extras] the arguments already set aside.  An
    argument that is no option of this parser is set aside; [--data_path]
    takes the value after [=], or else the next argument, which has to read
    as a positional and cannot be [--]; the first [--] makes itself and
    everything after it positional, and with no positional declared all of
    that is set aside. *)
Fixpoint consume (args : list string) (data_path : option string) (extras : list string)
    : outcome :=
  match args with
  | [] => finish data_path extras
  | arg :: rest =>
      if String.eqb arg "--" then finish data_path (extras ++ arg :: rest)
      else
        match parse_optional arg with
        | Ambiguous => SystemExit
        | Positional => consume rest data_path (extras ++ [arg])
        | Optional None _ => consume rest data_path (extras ++ [arg])
        | Optional (Some Help) _ => SystemExit
        | Optional (Some DataPath) (Some v) => consume rest (Some v) extras
        | Optional (Some DataPath) None =>
            match rest with
            | [] => SystemExit
            | v :: rest' =>
                if String.eqb v "--" then SystemExit
                else
                  match parse_optional v with
                  | Positional => consume rest' (Some v) extras
                  | _ => SystemExit
                  end
            end
        end
  end.

(** [extra_parser.parse_known_args()] on [sys.argv[1:]]. *)
Definition parse_known_args (argv : list string) : outcome :=
  consume argv None [].

Section with_config_parser.

(** [H4ArgumentParser(...).parse()] on the arguments left over (lines
    65-67) belongs to the alignment library: it yields the three
    configuration objects or ends the run. *)
Context {config : Type}.
Variable h4_parse : list string → option config.

(** What becomes of a run up to line 101. *)
Inductive load : Type :=
  | Exited
  | ReadJson (frame : result (list Formatter.row)).

Definition main_load (fs : string → option (list Frame.record)) (argv : list string)
    : load :=
  match parse_known_args argv with
  | SystemExit => Exited
  | Parsed data_path remaining_argv =>
      match h4_parse remaining_argv with
      | None => Exited
      | Some _ => ReadJson (Frame.read_json fs data_path)
      end
  end.

End with_config_parser.

End Cli.

(** ** From the file to the datasets, and the samples that are logged
       (lines 101-126, 150-159 and 188-190) *)

Module Datasets.

(** What a dataset stores: Arrow has strings, null, lists and structs. *)
Inductive stored : Type :=
  | SStr (s : string)
  | SNull
  | SList (items : list stored)
  | SStruct (fields : list (string * stored)).

(** [Dataset.from_pandas] on one value of a frame of formatted records:
    with pandas' reading of missing values the float nan becomes null, so
    that a row read back from the dataset holds [None] in its place. *)
Fixpoint store (v : value) : stored :=
  match v with
  | VStr s => SStr s
  | VNaN => SNull
  | VList items => SList (List.map store items)
  | VDict entries =>
      SStruct (List.map (λ entry, match entry with (k, x) => (k, store x) end) entries)
  end.

(** [datasets.Dataset.from_pandas(df)] (lines 121-122) for a frame of
    formatted records whose cells are strings or nan: every row is stored,
    in order, under the label it has in the frame (the index is no longer
    the default one after the split and is kept as a column).  A column
    that mixes strings with numbers is refused by Arrow; the text columns
    of [Vocabulary.text_columns] give no such frame. *)
Definition from_pandas (df : list (nat * value)) : list (nat * stored) :=
  (λ row, (row.1, store row.2)) <$> df.

(** [raw_datasets.map(f)]: every example is replaced by [f(example)], in
    order; the first exception ends the run. *)
Fixpoint dataset_map {A B : Type} (f : A → result B) (rows : list A) : result (list B) :=
  match rows with
  | [] => Ok []
  | r :: rows' =>
      let! x := f r in
      let! xs := dataset_map f rows' in
      Ok (x :: xs)
  end.

Section with_generators.

(** numpy's generator as in [Split]; of Python's own [random] module only
    what a successful [random.sample(range(n), k)] returns stays abstract. *)
Context {rng pyrng : Type}.
Variable RandomState : Z → rng.
Variable permutation : rng → nat → list nat.
Variable sample : pyrng → nat → nat → list nat.

(** Lines 101-120: the frame is formatted and split into the two frames
    [train_df] and [test_df], which keep the rows with their labels. *)
Definition raw_datasets (training_seed : Z) (recs : list Frame.record)
    : result (list (nat * value) * list (nat * value)) :=
  let! formatted_data := Frame.formatted_data recs in
  Split.main_split RandomState permutation training_seed formatted_data.

(** Lines 101-126: both frames become datasets, held under [train] and
    [test]. *)
Definition dataset_dict (training_seed : Z) (recs : list Frame.record)
    : result (list (nat * stored) * list (nat * stored)) :=
  let! frames := raw_datasets training_seed recs in
  Ok (from_pandas frames.1, from_pandas frames.2).

(** [random.sample(range(n), k)]: refused when [k] exceeds the population. *)
Definition random_sample (g : pyrng) (n k : nat) : result (list nat) :=
  if (k <=? n)%nat then Ok (sample g n k)
  else Raise (ValueError "Sample larger than population or is negative").

(** [dataset[index]]. *)
Definition getitem_row {A : Type} (dataset : list A) (index : nat) : result A :=
  match dataset !! index with
  | Some r => Ok r
  | None => Raise IndexError
  end.

(** Lines 188-190: three rows of the train set are drawn and logged; the
    rows drawn are returned in the order they are logged. *)
Definition log_samples {A : Type} (g : pyrng) (train : list A) : result (list A) :=
  let! indices := random_sample g (length train) 3 in
  dataset_map (getitem_row train) indices.

(** Lines 150-190: the chat template is applied to both datasets, then the
    samples are drawn from the train set. *)
Definition templated_and_logged {A B : Type} (apply_chat_template : A → result B)
    (g : pyrng) (datasets : list A * list A) : result ((list B * list B) * list B) :=
  let! train := dataset_map apply_chat_template datasets.1 in
  let! test := dataset_map apply_chat_template datasets.2 in
  let! logged := log_samples g train in
  Ok ((train, test), logged).

End with_generators.

End Datasets.

(** ** Settings derived from the configuration (lines 89-91 and 211) *)

Module Setup.


(** [needle in hay] on strings. *)
Fixpoint str_in (needle hay : string) : bool :=
  String.prefix needle hay ||
  match hay with
  | EmptyString => false
  | String _ hay' => str_in needle hay'
  end.

(** Line 211. *)
Definition attn_implementation (model_name_or_path : string) : string :=
  if str_in "gemma" model_name_or_path then "eager" else "flash_attention_2".

End Setup.

(** ** Training, saving, evaluating and uploading (lines 267-313) *)

Module Run.

(** A metric is whatever the trainer measured, or a sample count the script
    adds. *)
Inductive metric (M : Type) : Type :=
  | Measured (m : M)
  | Samples (n : nat).

Arguments Measured {M} m.
Arguments Samples {M} n.

(** The keyword arguments of the model card and of the upload. *)
Record card_kwargs : Type := {
  finetuned_from : string;
  dataset : list string;
  dataset_tags : list string;
  tags : list string
}.

(** The calls the script makes on the trainer, in the order it makes them. *)
Inductive call (M : Type) : Type :=
  | Train (resume_from_checkpoint : option string)
  | LogMetrics (split : string) (metrics : gmap string (metric M))
  | SaveMetrics (split : string) (metrics : gmap string (metric M))
  | SaveState
  | SaveModel (output_dir : string)
  | CreateModelCard (kwargs : card_kwargs)
  | RestoreUseCache
  | SavePretrained (output_dir : string)
  | Evaluate
  | PushToHub (kwargs : card_kwargs).

Arguments Train {M} _.
Arguments LogMetrics {M} _ _.
Arguments SaveMetrics {M} _ _.
Arguments SaveState {M}.
Arguments SaveModel {M} _.
Arguments CreateModelCard {M} _.
Arguments RestoreUseCache {M}.
Arguments SavePretrained {M} _.
Arguments Evaluate {M}.
Arguments PushToHub {M} _.

(** How the part of the run modelled here ends. *)
Inductive ending : Type :=
  | Completed
  | AttributeError.

(** What lines 267-313 read from the configuration and from earlier steps. *)
Record settings (W : Type) : Type := {
  resume_from_checkpoint : option string;
  last_checkpoint : option string;
  output_dir : string;
  model_name_or_path : string;
  dataset_mixer : option (list (string * W));
  is_main_process : bool;
  do_eval : bool;
  push_to_hub : bool
}.

Arguments resume_from_checkpoint {W} _.
Arguments last_checkpoint {W} _.
Arguments output_dir {W} _.
Arguments model_name_or_path {W} _.
Arguments dataset_mixer {W} _.
Arguments is_main_process {W} _.
Arguments do_eval {W} _.
Arguments push_to_hub {W} _.

Section with_trainer.

(** The metrics [trainer.train] and [trainer.evaluate] return belong to the
    trainer. *)
Context {M W : Type}.
Variable train_metrics : gmap string (metric M).
Variable eval_metrics : gmap string (metric M).

(** Lines 267-313 as the trace of the calls and the way the run ends.
    [data_args.dataset_mixer.keys()] at line 291 needs a dict: on [None] it
    raises, after the model has been saved. *)
Definition training_loop {A : Type} (cfg : settings W) (train test : list A)
    : list (call M) * ending :=
  let checkpoint :=
    Resume.select_checkpoint (resume_from_checkpoint cfg) (last_checkpoint cfg) in
  let metrics := <["train_samples" := Samples (length train)]> train_metrics in
  let trained :=
    [Train checkpoint; LogMetrics "train" metrics; SaveMetrics "train" metrics;
     SaveState; SaveModel (output_dir cfg)] in
  match dataset_mixer cfg with
  | None => (trained, AttributeError)
  | Some mixer =>
      let kwargs :=
        {| finetuned_from := model_name_or_path cfg;
           dataset := mixer.*1;
           dataset_tags := mixer.*1;
           tags := ["alignment-handbook"] |} in
      let carded :=
        if is_main_process cfg
        then [CreateModelCard kwargs; RestoreUseCache; SavePretrained (output_dir cfg)]
        else [] in
      let evaluated :=
        if do_eval cfg
        then
          let metrics := <["eval_samples" := Samples (length test)]> eval_metrics in
          [Evaluate; LogMetrics "eval" metrics; SaveMetrics "eval" metrics]
        else [] in
      let pushed := if push_to_hub cfg then [PushToHub kwargs] else [] in
      ((trained ++ carded ++ evaluated ++ pushed)%list, Completed)
  end.

End with_trainer.

End Run.

(** ** The vocabulary of the specification *)

Module Spec.
Import Formatter Frame.

(** The instruction template with its two holes filled. *)
Definition interpolated_template (question reasoning : string) : string :=
  "You are an advanced reasoning agent that can improve based on self-reflection. You will be given a previous reasoning trial in which you were given a question to answer. You were unsuccessful in answering the question. In a few sentences, Diagnose a possible reason for failure and devise a new, concise, high-level plan that aims to mitigate the same failure. Use complete sentences."
  ++ newline ++ newline ++ "Question: " ++ question
  ++ newline ++ "Previous trial and your incorrect solution: " ++ reasoning.

(** [out[side][i]] and [out[side][i]["content"]]. *)
Definition turn_of (side : string) (i : nat) (out : value) : option value :=
  field side out ≫= item i.

Definition content_of (side : string) (i : nat) (out : value) : option value :=
  turn_of side i out ≫= field "content".

(** The keys of a dict value, in order. *)
Definition keys_of (v : value) : option (list string) :=
  match v with
  | VDict d => Some (keys d)
  | _ => None
  end.

(** The output record of the specification for a prompt and two answers. *)
Definition preference_pair (prompt : string) (chosen rejected : value) : value :=
  VDict
    [("prompt", VStr prompt);
     ("chosen", VList [VDict [("content", VStr prompt); ("role", VStr "user")];
                       VDict [("content", chosen); ("role", VStr "assistant")]]);
     ("rejected", VList [VDict [("content", VStr prompt); ("role", VStr "user")];
                         VDict [("content", rejected); ("role", VStr "assistant")]])].

(** A field of a record as a cell: its string, or nan when it is missing. *)
Definition cell_of (o : option string) : cell :=
  match o with
  | Some s => CStr s
  | None => CNaN
  end.

(** The formatted record as a function of the four fields of a record and
    of nothing else. *)
Definition pair_of_fields (question reasoning chosen rejected : option string) : value :=
  preference_pair
    (interpolated_template (format (cell_of question)) (format (cell_of reasoning)))
    (of_cell (cell_of chosen)) (of_cell (cell_of rejected)).

Definition pair_of_record (rec : record) : value :=
  pair_of_fields (rec !! "question") (rec !! "first_trial_reasoning")
                 (rec !! "reflection_chosen") (rec !! "reflection_rejected").

(** Two records agree on the four required fields. *)
Definition same_fields (rec rec' : record) : Prop :=
  ∀ k, k ∈ required_fields → rec !! k = rec' !! k.

(** [⌈n/10⌉]. *)
Definition tenth_up (n : nat) : nat := (n + 9) / 10.

(** An argument names the data-path option: it is [--data_path], an
    abbreviation [--d], [--da], ... of it, or either followed by [=value]. *)
Definition names_data_path (arg : string) : bool :=
  let option_part := fst (Cli.split_eq arg) in
  String.prefix "--d" option_part && String.prefix option_part "--data_path".

(** An argument spells the flag out: [--data_path] or [--data_path=value]. *)
Definition spells_data_path (arg : string) : bool :=
  String.eqb (fst (Cli.split_eq arg)) "--data_path".

(** The command line supplies [path] as the data path: with an argument
    that names the option, after its [=], or else as the argument that
    follows it. *)
Definition supplies (argv : list string) (path : string) : Prop :=
  ∃ before arg after,
    argv = (before ++ arg :: after)%list ∧
    names_data_path arg = true ∧
    (snd (Cli.split_eq arg) = Some path ∨
     (snd (Cli.split_eq arg) = None ∧ ∃ rest, after = path :: rest)).

(** An argument that this parser sets aside for the configuration parser. *)
Definition passed_through (arg : string) : Prop :=
  arg ≠ "--" ∧
  (Cli.parse_optional arg = Cli.Positional ∨
   ∃ e, Cli.parse_optional arg = Cli.Optional None e).

End Spec.

(** ** Sample data *)

Module Sample.
Import Formatter Frame.

Definition full_record : record :=
  <["question" := "What is 2+2?"]>
    (<["first_trial_reasoning" := "I answered 5."]>
       (<["reflection_chosen" := "Add the numbers again."]>
          (<["reflection_rejected" := "Guess."]> ∅))).

(** A record without [reflection_chosen], and with a field of its own. *)
Definition partial_record : record :=
  <["question" := "What is 3+3?"]>
    (<["first_trial_reasoning" := "I answered 7."]>
       (<["reflection_rejected" := "Guess again."]>
          (<["id" := "17"]> ∅))).

Definition full_row : row :=
  <["question" := CStr "What is 2+2?"]>
    (<["first_trial_reasoning" := CStr "I answered 5."]>
       (<["reflection_chosen" := CStr "Add the numbers again."]>
          (<["reflection_rejected" := CStr "Guess."]> ∅))).

(** A generator that always shuffles by reversing. *)
Definition reversing (_ : unit) (n : nat) : list nat := rev (seq 0 n).

Definition seeded (_ : Z) : unit := tt.

(** A file system with one file. *)
Definition files (path : string) : option (list record) :=
  if String.eqb path "train.jsonl" then Some [full_record] else None.

(** Three formatted rows; the first and the last hold the same dict. *)
Definition three_pairs : list value :=
  [Spec.pair_of_record full_record;
   Spec.pair_of_record partial_record;
   Spec.pair_of_record full_record].

End Sample.

(** ** More vocabulary *)

Module Vocabulary.
Import Frame.

(** A string without a line break. *)
Definition single_line (s : string) : Prop :=
  Cli.contains (ascii_of_nat 10) s = false.

(** Some record of the file has the field. *)
Definition carried (recs : list record) (k : string) : Prop :=
  ∃ rec, rec ∈ recs ∧ is_Some (rec !! k).

(** A letter that no number has: Python's [float] reads digits, signs, a
    point, underscores, an exponent [e] and the words inf, infinity and
    nan in either case; any other ASCII letter makes it raise. *)
Definition letter_of_no_number (c : ascii) : bool :=
  let n := nat_of_ascii c in
  (((65 <=? n) && (n <=? 90)) || ((97 <=? n) && (n <=? 122)))%nat
  && negb (Cli.contains c "aefintyAEFINTY").

Fixpoint not_a_number (s : string) : bool :=
  match s with
  | EmptyString => false
  | String c s' => letter_of_no_number c || not_a_number s'
  end.

(** pandas keeps the column as text: one of its values is surely no
    number. *)
Definition text_column (recs : list record) (k : string) : Prop :=
  ∃ rec s, rec ∈ recs ∧ rec !! k = Some s ∧ not_a_number s = true.

(** The four required columns are text. *)
Definition text_columns (recs : list record) : Prop :=
  ∀ k, k ∈ required_fields → text_column recs k.

(** The argument begins with a dash. *)
Definition begins_with_dash (s : string) : bool :=
  match s with
  | String c _ => Ascii.eqb c "-"
  | EmptyString => false
  end.

End Vocabulary.

(** ** More sample data *)

Module MoreSamples.
Import Frame.

(** A sampler that always draws the first positions. *)
Definition first_positions (_ : unit) (_ k : nat) : list nat := seq 0 k.

Definition four_records : list record :=
  [Sample.full_record; Sample.partial_record; Sample.full_record; Sample.partial_record].

(** The records of [Sample], each with one more field. *)
Definition tagged_full_record : record := <["source" := "quiz"]> Sample.full_record.

Definition tagged_partial_record : record := <["id" := "18"]> Sample.partial_record.


Definition with_mixer : Run.settings unit :=
  {| Run.resume_from_checkpoint := None;
     Run.last_checkpoint := None;
     Run.output_dir := "out";
     Run.model_name_or_path := "google/gemma-2b";
     Run.dataset_mixer := Some [("reflections", tt)];
     Run.is_main_process := true;
     Run.do_eval := true;
     Run.push_to_hub := false |}.

End MoreSamples.

(** ** The formatter on one row *)

Module FormatterFacts.
Import Formatter Frame Spec.

Local Ltac in_required :=
  unfold required_fields;
  repeat first [apply list_elem_of_here | apply list_elem_of_further].

Lemma getitem_Some (r : row) k c : r !! k = Some c → getitem r k = Ok c.
Proof. unfold getitem. by intros ->. Qed.

Lemma getitem_None (r : row) k : r !! k = None → getitem r k = Raise (KeyError k).
Proof. unfold getitem. by intros ->. Qed.

Lemma getitem_Ok_inv (r : row) k c : getitem r k = Ok c → r !! k = Some c.
Proof. unfold getitem. destruct (r !! k); congruence. Qed.

Lemma build_user_prompt_cells (r : row) cq ct :
  r !! "question" = Some cq →
  r !! "first_trial_reasoning" = Some ct →
  build_user_prompt r = Ok (interpolated_template (format cq) (format ct)).
Proof.
  intros Hq Ht. unfold build_user_prompt.
  rewrite (getitem_Some _ _ _ Hq), (getitem_Some _ _ _ Ht).
  reflexivity.
Qed.

(** A row with the four labels is formatted, whatever its cells hold. *)
Lemma format_row_cells (r : row) cq ct cc cj :
  r !! "question" = Some cq →
  r !! "first_trial_reasoning" = Some ct →
  r !! "reflection_chosen" = Some cc →
  r !! "reflection_rejected" = Some cj →
  format_row r =
    Ok (preference_pair (interpolated_template (format cq) (format ct))
                        (of_cell cc) (of_cell cj)).
Proof.
  intros Hq Ht Hc Hj. unfold format_row.
  rewrite (build_user_prompt_cells _ _ _ Hq Ht).
  rewrite (getitem_Some _ _ _ Hc), (getitem_Some _ _ _ Hj). reflexivity.
Qed.

(** What a successful [format_row] has read. *)
Lemma format_row_Ok_inv (r : row) out :
  format_row r = Ok out →
  ∃ cq ct cc cj,
    r !! "question" = Some cq ∧
    r !! "first_trial_reasoning" = Some ct ∧
    r !! "reflection_chosen" = Some cc ∧
    r !! "reflection_rejected" = Some cj ∧
    out = preference_pair (interpolated_template (format cq) (format ct))
                          (of_cell cc) (of_cell cj).
Proof.
  intros H.
  destruct (r !! "question") as [cq|] eqn:Hq; last first.
  { unfold format_row, build_user_prompt in H.
    by rewrite (getitem_None _ _ Hq) in H. }
  destruct (r !! "first_trial_reasoning") as [ct|] eqn:Ht; last first.
  { unfold format_row, build_user_prompt in H.
    by rewrite (getitem_Some _ _ _ Hq), (getitem_None _ _ Ht) in H. }
  destruct (r !! "reflection_chosen") as [cc|] eqn:Hc; last first.
  { unfold format_row in H.
    by rewrite (build_user_prompt_cells _ _ _ Hq Ht), (getitem_None _ _ Hc) in H. }
  destruct (r !! "reflection_rejected") as [cj|] eqn:Hj; last first.
  { unfold format_row in H.
    by rewrite (build_user_prompt_cells _ _ _ Hq Ht), (getitem_Some _ _ _ Hc),
         (getitem_None _ _ Hj) in H. }
  exists cq, ct, cc, cj. repeat split.
  rewrite (format_row_cells _ _ _ _ _ Hq Ht Hc Hj) in H. congruence.
Qed.

(** The first label that is missing, in reading order, is the one raised. *)
Lemma format_row_missing (r : row) :
  (∃ k, k ∈ required_fields ∧ r !! k = None) →
  ∃ k, k ∈ required_fields ∧ r !! k = None ∧ format_row r = Raise (KeyError k).
Proof.
  intros (k0 & Hin & Hk0).
  destruct (r !! "question") as [cq|] eqn:Hq; last first.
  { exists "question". split; [in_required|]. split; [done|].
    unfold format_row, build_user_prompt. by rewrite (getitem_None _ _ Hq). }
  destruct (r !! "first_trial_reasoning") as [ct|] eqn:Ht; last first.
  { exists "first_trial_reasoning". split; [in_required|]. split; [done|].
    unfold format_row, build_user_prompt.
    by rewrite (getitem_Some _ _ _ Hq), (getitem_None _ _ Ht). }
  destruct (r !! "reflection_chosen") as [cc|] eqn:Hc; last first.
  { exists "reflection_chosen". split; [in_required|]. split; [done|].
    unfold format_row.
    by rewrite (build_user_prompt_cells _ _ _ Hq Ht), (getitem_None _ _ Hc). }
  destruct (r !! "reflection_rejected") as [cj|] eqn:Hj; last first.
  { exists "reflection_rejected". split; [in_required|]. split; [done|].
    unfold format_row.
    by rewrite (build_user_prompt_cells _ _ _ Hq Ht), (getitem_Some _ _ _ Hc),
         (getitem_None _ _ Hj). }
  exfalso. unfold required_fields in Hin.
  repeat (apply elem_of_cons in Hin as [->|Hin]; [congruence|]).
  by apply elem_of_nil in Hin.
Qed.

(** C1.  A row whose four fields [question], [first_trial_reasoning],
    [reflection_chosen] and [reflection_rejected] are populated is formatted
    into a record whose [prompt] is the instruction template interpolated
    with the question and the first-trial reasoning, whose
    [chosen[1].content] is the chosen reflection and whose
    [rejected[1].content] is the rejected one. *)
Theorem formatter_populated (r : row) (q t c j : string) :
  r !! "question" = Some (CStr q) →
  r !! "first_trial_reasoning" = Some (CStr t) →
  r !! "reflection_chosen" = Some (CStr c) →
  r !! "reflection_rejected" = Some (CStr j) →
  ∃ out,
    format_row r = Ok out ∧
    field "prompt" out = Some (VStr (interpolated_template q t)) ∧
    content_of "chosen" 1 out = Some (VStr c) ∧
    content_of "rejected" 1 out = Some (VStr j).
Proof.
  intros Hq Ht Hc Hj. eexists. split.
  - apply (format_row_cells _ _ _ _ _ Hq Ht Hc Hj).
  - repeat split.
Qed.

Lemma formatter_populated_sample :
  ∃ out,
    format_row Sample.full_row = Ok out ∧
    field "prompt" out
      = Some (VStr (interpolated_template "What is 2+2?" "I answered 5.")) ∧
    content_of "chosen" 1 out = Some (VStr "Add the numbers again.") ∧
    content_of "rejected" 1 out = Some (VStr "Guess.").
Proof.
  apply (formatter_populated Sample.full_row); reflexivity.
Defined.

(** C2.  For a row with the four fields populated the output dict has
    exactly the keys [prompt], [chosen], [rejected]; [chosen] is the
    two-element list of a user turn and an assistant turn carrying the
    chosen reflection, [rejected] the two-element list of a user turn and an
    assistant turn carrying the rejected reflection, and every turn is a dict
    of [content] and [role] with role [user] respectively [assistant]. *)
Theorem formatter_shape (r : row) (q t c j : string) :
  r !! "question" = Some (CStr q) →
  r !! "first_trial_reasoning" = Some (CStr t) →
  r !! "reflection_chosen" = Some (CStr c) →
  r !! "reflection_rejected" = Some (CStr j) →
  ∃ out prompt,
    format_row r = Ok out ∧
    keys_of out = Some ["prompt"; "chosen"; "rejected"] ∧
    field "prompt" out = Some (VStr prompt) ∧
    field "chosen" out
      = Some (VList [VDict [("content", VStr prompt); ("role", VStr "user")];
                     VDict [("content", VStr c); ("role", VStr "assistant")]]) ∧
    field "rejected" out
      = Some (VList [VDict [("content", VStr prompt); ("role", VStr "user")];
                     VDict [("content", VStr j); ("role", VStr "assistant")]]).
Proof.
  intros Hq Ht Hc Hj. eexists _, _. split.
  - apply (format_row_cells _ _ _ _ _ Hq Ht Hc Hj).
  - repeat split.
Qed.

Lemma formatter_shape_sample :
  ∃ out prompt,
    format_row Sample.full_row = Ok out ∧
    keys_of out = Some ["prompt"; "chosen"; "rejected"] ∧
    field "prompt" out = Some (VStr prompt) ∧
    field "chosen" out
      = Some (VList [VDict [("content", VStr prompt); ("role", VStr "user")];
                     VDict [("content", VStr "Add the numbers again.");
                            ("role", VStr "assistant")]]) ∧
    field "rejected" out
      = Some (VList [VDict [("content", VStr prompt); ("role", VStr "user")];
                     VDict [("content", VStr "Guess."); ("role", VStr "assistant")]]).
Proof.
  apply (formatter_shape Sample.full_row "What is 2+2?" "I answered 5.");
    reflexivity.
Defined.

(** C8.  In every formatted record the user turn of [chosen] and the user
    turn of [rejected] are the same turn, and its content is the [prompt] of
    the record. *)
Theorem user_turns_repeat_prompt (r : row) (out : value) :
  format_row r = Ok out →
  ∃ prompt user_turn,
    field "prompt" out = Some prompt ∧
    turn_of "chosen" 0 out = Some user_turn ∧
    turn_of "rejected" 0 out = Some user_turn ∧
    field "content" user_turn = Some prompt ∧
    content_of "chosen" 0 out = Some prompt ∧
    content_of "rejected" 0 out = Some prompt.
Proof.
  intros H. apply format_row_Ok_inv in H as (cq & ct & cc & cj & _ & _ & _ & _ & ->).
  eexists _, _. repeat split.
Qed.

Lemma user_turns_repeat_prompt_sample :
  ∃ prompt user_turn,
    field "prompt" (pair_of_record Sample.full_record) = Some prompt ∧
    turn_of "chosen" 0 (pair_of_record Sample.full_record) = Some user_turn ∧
    turn_of "rejected" 0 (pair_of_record Sample.full_record) = Some user_turn ∧
    field "content" user_turn = Some prompt ∧
    content_of "chosen" 0 (pair_of_record Sample.full_record) = Some prompt ∧
    content_of "rejected" 0 (pair_of_record Sample.full_record) = Some prompt.
Proof.
  apply (user_turns_repeat_prompt Sample.full_row). reflexivity.
Defined.

End FormatterFacts.

(** ** The formatter on a whole file *)

Module FrameFacts.
Import Formatter Frame Spec Vocabulary FormatterFacts.

Local Ltac in_required :=
  unfold required_fields;
  repeat first [apply list_elem_of_here | apply list_elem_of_further].

Lemma elem_of_columns (recs : list record) k :
  k ∈ columns recs ↔ ∃ rec, rec ∈ recs ∧ is_Some (rec !! k).
Proof.
  unfold columns. rewrite elem_of_union_list. split.
  - intros (X & HX & Hk). apply list_elem_of_fmap in HX as (rec & -> & Hrec).
    exists rec. split; [done|]. by apply elem_of_dom.
  - intros (rec & Hrec & Hk). exists (dom rec). split.
    + apply list_elem_of_fmap. by exists rec.
    + by apply elem_of_dom.
Qed.

Lemma lookup_row_of_Some (cols : gset string) (rec : record) k s :
  rec !! k = Some s → row_of cols rec !! k = Some (CStr s).
Proof.
  intros H. unfold row_of. apply lookup_union_Some_l.
  by rewrite lookup_fmap, H.
Qed.

Lemma lookup_row_of_nan (cols : gset string) (rec : record) k :
  rec !! k = None → k ∈ cols → row_of cols rec !! k = Some CNaN.
Proof.
  intros H Hk. unfold row_of. rewrite lookup_union_r.
  - by apply lookup_gset_to_gmap_Some.
  - by rewrite lookup_fmap, H.
Qed.

Lemma lookup_row_of_None (cols : gset string) (rec : record) k :
  rec !! k = None → k ∉ cols → row_of cols rec !! k = None.
Proof.
  intros H Hk. unfold row_of. apply lookup_union_None. split.
  - by rewrite lookup_fmap, H.
  - by apply lookup_gset_to_gmap_None.
Qed.

(** A column of the frame holds, in every row, the field of the record or
    nan. *)
Lemma lookup_row_of_column (cols : gset string) (rec : record) k :
  k ∈ cols → row_of cols rec !! k = Some (cell_of (rec !! k)).
Proof.
  intros Hk. destruct (rec !! k) as [s|] eqn:E; simpl.
  - by apply lookup_row_of_Some.
  - by apply lookup_row_of_nan.
Qed.

Lemma lookup_row_of_inv (cols : gset string) (rec : record) k :
  row_of cols rec !! k = None → rec !! k = None ∧ k ∉ cols.
Proof.
  intros H. destruct (rec !! k) as [s|] eqn:E.
  - by rewrite (lookup_row_of_Some cols _ _ _ E) in H.
  - split; [done|]. intros Hk. by rewrite (lookup_row_of_nan _ _ _ E Hk) in H.
Qed.

Lemma format_row_of (cols : gset string) (rec : record) :
  (∀ k, k ∈ required_fields → k ∈ cols) →
  format_row (row_of cols rec) = Ok (pair_of_record rec).
Proof.
  intros Hcols. unfold pair_of_record, pair_of_fields.
  apply format_row_cells; apply lookup_row_of_column, Hcols; in_required.
Qed.

Lemma format_rows_of (cols : gset string) (recs : list record) :
  (∀ k, k ∈ required_fields → k ∈ cols) →
  format_rows (row_of cols <$> recs) = Ok (pair_of_record <$> recs).
Proof.
  intros Hcols. induction recs as [|rec recs IH]; [done|].
  rewrite !fmap_cons. simpl. by rewrite (format_row_of _ _ Hcols), IH.
Qed.

(** When every required field is a column, nothing is raised and the output
    is the image of the records, one by one and in order. *)
Lemma formatted_data_columns (recs : list record) :
  (∀ k, k ∈ required_fields → k ∈ columns recs) →
  formatted_data recs = Ok (pair_of_record <$> recs).
Proof. apply format_rows_of. Qed.

(** When a required field is no column, the first row already raises. *)
Lemma formatted_data_no_column (recs : list record) k :
  recs ≠ [] → k ∈ required_fields → k ∉ columns recs →
  ∃ k', k' ∈ required_fields ∧ (k' ∉ columns recs) ∧
        formatted_data recs = Raise (KeyError k').
Proof.
  intros Hne Hk Hcol. destruct recs as [|rec recs]; [done|].
  assert (rec !! k = None) as Hrec.
  { destruct (rec !! k) eqn:E; [|done]. exfalso. apply Hcol, elem_of_columns.
    exists rec. split; [apply list_elem_of_here | by rewrite E]. }
  destruct (format_row_missing (row_of (columns (rec :: recs)) rec))
    as (k' & Hk' & Hnone & Hraise).
  { exists k. split; [done|]. by apply lookup_row_of_None. }
  exists k'. split; [done|]. split.
  - by apply lookup_row_of_inv in Hnone as [_ ?].
  - unfold formatted_data, frame_rows. rewrite fmap_cons. simpl.
    by rewrite Hraise.
Qed.

Lemma pair_of_record_same_fields (rec rec' : record) :
  same_fields rec rec' → pair_of_record rec = pair_of_record rec'.
Proof.
  intros H. unfold pair_of_record.
  rewrite (H "question") by in_required.
  rewrite (H "first_trial_reasoning") by in_required.
  rewrite (H "reflection_chosen") by in_required.
  by rewrite (H "reflection_rejected") by in_required.
Qed.

Lemma text_column_carried (recs : list record) k :
  text_column recs k → k ∈ columns recs.
Proof.
  intros (rec & s & Hin & Hs & _). apply elem_of_columns.
  exists rec. split; [done|]. by rewrite Hs.
Qed.

Lemma formatted_data_text (recs : list record) :
  text_columns recs → formatted_data recs = Ok (pair_of_record <$> recs).
Proof.
  intros Htext. apply formatted_data_columns.
  intros k Hk. by apply text_column_carried, Htext.
Qed.

Lemma same_fields_fmap (recs recs' : list record) :
  Forall2 same_fields recs recs' → pair_of_record <$> recs = pair_of_record <$> recs'.
Proof.
  induction 1 as [|rec rec' recs recs' H _ IH]; [done|].
  rewrite !fmap_cons, IH. by rewrite (pair_of_record_same_fields _ _ H).
Qed.

Lemma same_fields_text_columns (recs recs' : list record) :
  Forall2 same_fields recs recs' → text_columns recs → text_columns recs'.
Proof.
  intros Hsame Htext k Hk.
  destruct (Htext k Hk) as (rec & s & Hin & Hs & Hnum).
  apply list_elem_of_lookup in Hin as [i Hi].
  destruct (Forall2_lookup_l _ _ _ _ _ Hsame Hi) as (rec' & Hi' & Hf).
  exists rec', s. split; [by eapply list_elem_of_lookup_2|].
  split; [|done]. by rewrite <- (Hf k Hk).
Qed.

Lemma sample_text_columns : text_columns [Sample.full_record; Sample.partial_record].
Proof.
  intros k Hk. unfold required_fields in Hk.
  repeat (apply elem_of_cons in Hk as [->|Hk];
          [eexists Sample.full_record, _;
           split; [apply list_elem_of_here|]; split; reflexivity|]).
  by apply elem_of_nil in Hk.
Qed.

Lemma partial_record_alone :
  formatted_data [Sample.partial_record] = Raise (KeyError "reflection_chosen").
Proof. vm_compute. reflexivity. Qed.

(** C9, as stated, fails: a file whose only record has no
    [reflection_chosen] is a file of one record for which no formatted
    record is produced. *)
Lemma incomplete_file_gives_no_record :
  ¬ (∀ recs : list record,
       ∃ out, formatted_data recs = Ok out ∧ length out = length recs).
Proof.
  intros claim. destruct (claim [Sample.partial_record]) as (out & Hout & _).
  rewrite partial_record_alone in Hout. discriminate Hout.
Qed.

(** C9, amended.  On a file of n records whose four required columns are
    text (each required field has, in some record, a value with a letter
    that no number has, so that pandas keeps the column as strings) the
    formatter yields n formatted records, the i-th of them computed from
    the i-th record, and from its fields [question],
    [first_trial_reasoning], [reflection_chosen] and [reflection_rejected]
    alone, a field it lacks counting as nan: a file whose records agree
    with these on the four fields, whatever else they hold, gives the same
    output. *)
Theorem formatter_maps_records (recs : list record) :
  text_columns recs →
  ∃ out,
    formatted_data recs = Ok out ∧
    length out = length recs ∧
    (∀ i rec, recs !! i = Some rec →
       out !! i = Some (pair_of_fields (rec !! "question")
                          (rec !! "first_trial_reasoning")
                          (rec !! "reflection_chosen")
                          (rec !! "reflection_rejected"))) ∧
    (∀ recs', Forall2 same_fields recs recs' → formatted_data recs' = Ok out).
Proof.
  intros Htext. exists (pair_of_record <$> recs). split; [|split; [|split]].
  - by apply formatted_data_text.
  - by rewrite length_fmap.
  - intros i rec Hi. by rewrite list_lookup_fmap, Hi.
  - intros recs' Hsame.
    rewrite (formatted_data_text recs'); [|by eapply same_fields_text_columns].
    by rewrite (same_fields_fmap _ _ Hsame).
Qed.

(** A field with another name does not touch the four required ones. *)
Lemma same_fields_tagged (rec : record) (tag value : string) :
  tag ∉ required_fields → same_fields rec (<[tag := value]> rec).
Proof.
  intros Htag k Hk. symmetry. apply lookup_insert_ne. by intros ->.
Qed.

Lemma formatter_maps_records_sample :
  ∃ out,
    formatted_data [Sample.full_record; Sample.partial_record] = Ok out ∧
    length out = 2 ∧
    out !! 0 = Some (pair_of_record Sample.full_record) ∧
    out !! 1 = Some (pair_of_record Sample.partial_record) ∧
    formatted_data [MoreSamples.tagged_full_record; MoreSamples.tagged_partial_record]
      = Ok out.
Proof.
  destruct (formatter_maps_records [Sample.full_record; Sample.partial_record]
              sample_text_columns) as (out & Hout & Hlen & Hith & Hsame).
  exists out. split; [done|]. split; [done|].
  split; [exact (Hith 0 Sample.full_record eq_refl)|].
  split; [exact (Hith 1 Sample.partial_record eq_refl)|].
  apply Hsame.
  assert (∀ tag : string, tag = "source" ∨ tag = "id" → tag ∉ required_fields) as Htag.
  { intros tag Htag Hin. unfold required_fields in Hin.
    repeat (apply elem_of_cons in Hin as [->|Hin]; [by destruct Htag|]).
    by apply elem_of_nil in Hin. }
  constructor; [apply same_fields_tagged, Htag; by left|].
  constructor; [apply same_fields_tagged, Htag; by right|]. constructor.
Defined.

(** A file in which one record lacks a field that another one carries. *)
Lemma partial_record_formatted :
  formatted_data [Sample.full_record; Sample.partial_record]
  = Ok [pair_of_record Sample.full_record;
        preference_pair
          (interpolated_template "What is 3+3?" "I answered 7.")
          VNaN (VStr "Guess again.")].
Proof. vm_compute. reflexivity. Qed.

(** C6, as stated, fails: a record that lacks a required field which another
    record of the file carries is formatted without any error, with nan in
    the place of the missing reflection. *)
Lemma missing_field_not_always_raised :
  ¬ (∀ (recs : list record) (rec : record) (k : string),
       rec ∈ recs → k ∈ required_fields → rec !! k = None →
       ∃ e, formatted_data recs = Raise e).
Proof.
  intros claim.
  destruct (claim [Sample.full_record; Sample.partial_record]
              Sample.partial_record "reflection_chosen") as [e He].
  - apply list_elem_of_further, list_elem_of_here.
  - in_required.
  - reflexivity.
  - rewrite partial_record_formatted in He. discriminate He.
Qed.

(** C6, amended.  Let a record of the file lack one of the four required
    fields.  If no record of the file carries that field, the run aborts
    with a [KeyError] for a required field that the file does not have.  If
    instead every required field is carried by some record of the file,
    nothing is raised and every record gets its formatted record.  Where
    moreover the four required columns are text, the formatted records are
    those of the fields as they stand, the missing one as nan. *)
Theorem missing_field_outcome (recs : list record) (rec : record) (k : string) :
  rec ∈ recs → k ∈ required_fields → rec !! k = None →
  ((∀ rec', rec' ∈ recs → rec' !! k = None) →
     ∃ k', k' ∈ required_fields ∧
           (∀ rec', rec' ∈ recs → rec' !! k' = None) ∧
           formatted_data recs = Raise (KeyError k'))
  ∧
  ((∀ k', k' ∈ required_fields → carried recs k') →
     ∃ out, formatted_data recs = Ok out ∧ length out = length recs)
  ∧
  (text_columns recs →
     formatted_data recs = Ok (pair_of_record <$> recs) ∧
     cell_of (rec !! k) = CNaN).
Proof.
  intros Hin Hk Hnone. split; [|split].
  - intros Hall.
    destruct (formatted_data_no_column recs k) as (k' & Hk' & Hcol & Hraise).
    + intros ->. by apply elem_of_nil in Hin.
    + done.
    + intros (rec' & Hin' & Hsome)%elem_of_columns.
      rewrite (Hall _ Hin') in Hsome. by destruct Hsome.
    + exists k'. split; [done|]. split; [|done].
      intros rec' Hin'. destruct (rec' !! k') eqn:E; [|done].
      exfalso. apply Hcol, elem_of_columns. exists rec'. by rewrite E.
  - intros Hcols. exists (pair_of_record <$> recs). split; [|by rewrite length_fmap].
    apply formatted_data_columns. intros k' Hk'. by apply elem_of_columns, Hcols.
  - intros Htext. split; [by apply formatted_data_text | by rewrite Hnone].
Qed.

Lemma missing_field_outcome_sample :
  (∃ k', k' ∈ required_fields ∧
         (∀ rec', rec' ∈ [Sample.partial_record] → rec' !! k' = None) ∧
         formatted_data [Sample.partial_record] = Raise (KeyError k'))
  ∧
  (∃ out, formatted_data [Sample.full_record; Sample.partial_record] = Ok out ∧
          length out = 2)
  ∧
  (formatted_data [Sample.full_record; Sample.partial_record]
     = Ok (pair_of_record <$> [Sample.full_record; Sample.partial_record]) ∧
   cell_of (Sample.partial_record !! "reflection_chosen") = CNaN).
Proof.
  assert ("reflection_chosen" ∈ required_fields) as Hk by in_required.
  destruct (missing_field_outcome [Sample.partial_record] Sample.partial_record
              "reflection_chosen") as (Hnone & _ & _);
    [apply list_elem_of_here | done | reflexivity |].
  destruct (missing_field_outcome [Sample.full_record; Sample.partial_record]
              Sample.partial_record "reflection_chosen") as (_ & Hsome & Htext);
    [apply list_elem_of_further, list_elem_of_here | done | reflexivity |].
  split; [|split].
  - apply Hnone. by intros rec' ->%list_elem_of_singleton.
  - apply Hsome. intros k' Hk'. by apply elem_of_columns, text_column_carried,
      sample_text_columns.
  - apply Htext, sample_text_columns.
Defined.

End FrameFacts.

(** ** The train/test split *)

Module SplitFacts.
Import Frame Split Spec.
Local Open Scope nat_scope.
Local Open Scope list_scope.

Lemma ceil_fraction_tenth n : ceil_fraction 1 10 n = tenth_up n.
Proof. unfold ceil_fraction, tenth_up. f_equal. lia. Qed.

Lemma tenth_up_bounds n : n ≤ 10 * tenth_up n ∧ 10 * tenth_up n < n + 10.
Proof.
  unfold tenth_up.
  pose proof (Nat.div_mod_eq (n + 9) 10).
  pose proof (Nat.mod_upper_bound (n + 9) 10). lia.
Qed.

Lemma tenth_up_proper n : 2 ≤ n → 1 ≤ tenth_up n ∧ tenth_up n < n.
Proof. pose proof (tenth_up_bounds n). lia. Qed.

Lemma tenth_up_short n : n ≤ 1 → n - tenth_up n = 0.
Proof. pose proof (tenth_up_bounds n). lia. Qed.

(** Reading a frame at all its positions, in order, gives the frame. *)
Lemma omap_lookup_seq {A} (pre l : list A) :
  omap (λ i, (pre ++ l) !! i) (seq (length pre) (length l)) = l.
Proof.
  revert pre. induction l as [|x l IH]; intros pre; [done|].
  simpl. rewrite list_lookup_middle by done. simpl. f_equal.
  replace (pre ++ x :: l) with ((pre ++ [x]) ++ l) by (by rewrite <- app_assoc).
  replace (S (length pre)) with (length (pre ++ [x]))
    by (rewrite length_app; simpl; lia).
  apply IH.
Qed.

Lemma omap_lookup_all {A} (l : list A) :
  omap (λ i, l !! i) (seq 0 (length l)) = l.
Proof. apply (omap_lookup_seq []). Qed.

Lemma iloc_in_range {A} (df : list A) (indices : list nat) :
  Forall (λ i, i < length df) indices →
  iloc df indices = Ok (omap (λ i, df !! i) indices).
Proof.
  intros Hall. unfold iloc.
  assert (mapM (λ i, df !! i) indices = Some (omap (λ i, df !! i) indices)) as ->;
    [|done].
  induction Hall as [|i indices Hi _ IH]; [done|].
  apply lookup_lt_is_Some in Hi as [x Hx].
  simpl. rewrite Hx. simpl. by rewrite IH.
Qed.

Lemma length_omap_in_range {A} (df : list A) (indices : list nat) :
  Forall (λ i, i < length df) indices →
  length (omap (λ i, df !! i) indices) = length indices.
Proof.
  intros Hall. induction Hall as [|i indices Hi _ IH]; [done|].
  apply lookup_lt_is_Some in Hi as [x Hx].
  simpl. rewrite Hx. simpl. f_equal. exact IH.
Qed.

(** A frame too short to leave a train set is refused, whatever the
    generator. *)
Lemma train_test_split_short {rng A} (RandomState : Z → rng)
    (permutation : rng → nat → list nat) global (df : list A) rs :
  length df ≤ 1 →
  train_test_split RandomState permutation global df 1 10 rs
  = Raise (ValueError "the resulting train set will be empty").
Proof.
  intros Hn. unfold train_test_split, validate_shuffle_split.
  rewrite ceil_fraction_tenth, tenth_up_short by done. reflexivity.
Qed.

Lemma length_DataFrame (data : list value) : length (DataFrame data) = length data.
Proof. apply length_imap. Qed.

Lemma labels_DataFrame (data : list value) :
  (DataFrame data).*1 = seq 0 (length data).
Proof.
  unfold DataFrame. rewrite fmap_imap.
  rewrite (imap_ext _ (λ i _, i)) by done.
  rewrite (imap_seq_0 data (λ i : nat, i)). by rewrite list_fmap_id.
Qed.

(** Every row of the formatted frame has a label of its own. *)
Lemma NoDup_DataFrame (data : list value) : NoDup (DataFrame data).
Proof.
  apply (NoDup_fmap_1 fst). rewrite labels_DataFrame. apply NoDup_seq.
Qed.

Section with_generator.

Context {rng : Type}.
Variable RandomState : Z → rng.
Variable permutation : rng → nat → list nat.

(** What numpy documents of [rng.permutation(n)]. *)
Hypothesis permutation_shuffles : ∀ g n, permutation g n ≡ₚ seq 0 n.

Lemma permutation_length g n : length (permutation g n) = n.
Proof. by rewrite (Permutation_length (permutation_shuffles g n)), length_seq. Qed.

Lemma permutation_in_range g n : Forall (λ i, i < n) (permutation g n).
Proof.
  rewrite (permutation_shuffles g n). apply Forall_forall.
  intros i Hi%elem_of_seq. lia.
Qed.

(** The split of a frame of at least two rows: both parts are read off one
    shuffle, the test part first, and together they use it up. *)
Lemma train_test_split_tenth {A} global (df : list A) rs :
  2 ≤ length df →
  ∃ train test,
    train_test_split RandomState permutation global df 1 10 rs = Ok (train, test) ∧
    test ++ train
      = omap (λ i, df !! i) (permutation (check_random_state RandomState global rs)
                                         (length df)) ∧
    length test = tenth_up (length df) ∧
    length train = length df - tenth_up (length df).
Proof.
  intros Hn. set (n := length df) in *. set (g := check_random_state _ _ _).
  destruct (tenth_up_proper n Hn) as [Hlo Hhi].
  pose proof (permutation_length g n) as Hlen.
  pose proof (permutation_in_range g n) as Hrange.
  assert (take (n - tenth_up n) (drop (tenth_up n) (permutation g n))
          = drop (tenth_up n) (permutation g n)) as Htrain.
  { apply take_ge. rewrite length_drop. lia. }
  exists (omap (λ i, df !! i) (drop (tenth_up n) (permutation g n))),
         (omap (λ i, df !! i) (take (tenth_up n) (permutation g n))).
  split; [|split; [|split]].
  - unfold train_test_split, validate_shuffle_split, validate_sizes, iter_indices.
    fold n. rewrite ceil_fraction_tenth.
    destruct (Nat.eqb_spec (n - tenth_up n) 0) as [E|_]; [lia|]. simpl.
    destruct (Nat.leb_spec n (tenth_up n)) as [E|_]; [lia|].
    destruct (Nat.eqb_spec (tenth_up n) 0) as [E|_]; [lia|]. simpl.
    destruct (Nat.leb_spec n (n - tenth_up n)) as [E|_]; [lia|].
    destruct (Nat.eqb_spec (n - tenth_up n) 0) as [E|_]; [lia|]. simpl.
    fold g. rewrite Htrain.
    rewrite !iloc_in_range; [done | by apply Forall_take | by apply Forall_drop].
  - by rewrite <- omap_app, take_drop.
  - rewrite length_omap_in_range by by apply Forall_take. rewrite length_take. lia.
  - rewrite length_omap_in_range by by apply Forall_drop. rewrite length_drop. lia.
Qed.

Lemma train_test_split_permutation {A} global (df : list A) rs train test :
  2 ≤ length df →
  train_test_split RandomState permutation global df 1 10 rs = Ok (train, test) →
  train ++ test ≡ₚ df.
Proof.
  intros Hn Hsplit.
  destruct (train_test_split_tenth global df rs Hn)
    as (train' & test' & Hsplit' & Hcat & _ & _).
  rewrite Hsplit in Hsplit'. injection Hsplit' as <- <-.
  rewrite (Permutation_app_comm train test), Hcat.
  rewrite (permutation_shuffles _ (length df)).
  by rewrite omap_lookup_all.
Qed.

(** C3, amended.  For every list of at least two formatted records the
    split yields a train and a test partition that together hold exactly
    the rows of the input frame, each labelled row once: every input row
    is in one of the two and in no case in both. *)
Theorem split_partitions (training_seed : Z) (data : list value) :
  2 ≤ length data →
  ∃ train test,
    main_split RandomState permutation training_seed data = Ok (train, test) ∧
    train ++ test ≡ₚ DataFrame data ∧
    NoDup (train ++ test) ∧
    (∀ x, x ∈ DataFrame data →
       (x ∈ train ∧ x ∉ test) ∨ (x ∈ test ∧ x ∉ train)).
Proof.
  intros Hn. rewrite <- length_DataFrame in Hn. unfold main_split.
  destruct (train_test_split_tenth (RandomState training_seed)
              (DataFrame data) (RsInt 42) Hn)
    as (train & test & Hsplit & _).
  pose proof (train_test_split_permutation _ _ _ _ _ Hn Hsplit) as Hperm.
  assert (NoDup (train ++ test)) as Hnodup.
  { rewrite Hperm. apply NoDup_DataFrame. }
  exists train, test. split; [done|]. split; [done|]. split; [done|].
  intros x Hx. rewrite <- Hperm in Hx.
  apply NoDup_app in Hnodup as (_ & Hdisj & _).
  apply elem_of_app in Hx as [Hx|Hx].
  - left. split; [done|]. by apply Hdisj.
  - right. split; [done|]. intros Hx'. by apply (Hdisj x).
Qed.

(** C4.  The split is reproducible: its generator is seeded afresh with
    the hard-coded 42, so whatever state the global generator is in, and
    whatever the training seed that put it there, the same frame is split
    into the same train and test partitions. *)
Theorem split_reproducible (data : list value) :
  (∀ seed1 seed2 : Z,
     main_split RandomState permutation seed1 data
     = main_split RandomState permutation seed2 data) ∧
  (∀ global1 global2 : rng,
     train_test_split RandomState permutation global1 (DataFrame data) 1 10 (RsInt 42)
     = train_test_split RandomState permutation global2 (DataFrame data) 1 10 (RsInt 42)).
Proof. split; reflexivity. Qed.

(** C5, amended.  For every input of n >= 2 formatted records the test
    partition gets the tenth of the rows, rounded up, and the train
    partition the n - ceil(n/10) others. *)
Theorem split_sizes (training_seed : Z) (data : list value) :
  2 ≤ length data →
  ∃ train test,
    main_split RandomState permutation training_seed data = Ok (train, test) ∧
    length test = tenth_up (length data) ∧
    length train = length data - tenth_up (length data) ∧
    length train + length test = length data ∧
    length data ≤ 10 * length test ∧ 10 * length test < length data + 10.
Proof.
  intros Hn. pose proof (tenth_up_bounds (length data)) as Hb.
  pose proof (tenth_up_proper _ Hn) as Hp.
  rewrite <- length_DataFrame in Hn. unfold main_split.
  destruct (train_test_split_tenth (RandomState training_seed)
              (DataFrame data) (RsInt 42) Hn)
    as (train & test & Hsplit & _ & Htest & Htrain).
  rewrite length_DataFrame in Htest, Htrain.
  exists train, test. split; [done|]. lia.
Qed.

End with_generator.

Lemma reversing_shuffles (g : unit) (n : nat) : Sample.reversing g n ≡ₚ seq 0 n.
Proof. unfold Sample.reversing. symmetry. apply Permutation_rev. Qed.

Lemma split_partitions_sample :
  ∃ train test,
    main_split Sample.seeded Sample.reversing 7 Sample.three_pairs = Ok (train, test) ∧
    train ++ test ≡ₚ DataFrame Sample.three_pairs ∧
    NoDup (train ++ test) ∧
    (∀ x, x ∈ DataFrame Sample.three_pairs →
       (x ∈ train ∧ x ∉ test) ∨ (x ∈ test ∧ x ∉ train)).
Proof.
  apply (split_partitions Sample.seeded Sample.reversing reversing_shuffles
           7 Sample.three_pairs).
  simpl. lia.
Defined.

Lemma split_sizes_sample :
  ∃ train test,
    main_split Sample.seeded Sample.reversing 7 Sample.three_pairs = Ok (train, test) ∧
    length test = tenth_up 3 ∧
    length train = 3 - tenth_up 3 ∧
    length train + length test = 3 ∧
    3 ≤ 10 * length test ∧ 10 * length test < 3 + 10.
Proof.
  apply (split_sizes Sample.seeded Sample.reversing reversing_shuffles
           7 Sample.three_pairs).
  simpl. lia.
Defined.

(** C3, as stated, fails: a list of one formatted record is not split at
    all, the call raises [ValueError]. *)
Lemma split_of_one_row_has_no_partitions :
  ¬ (∀ (rng : Type) (RandomState : Z → rng) (permutation : rng → nat → list nat),
       (∀ g n, permutation g n ≡ₚ seq 0 n) →
       ∀ (training_seed : Z) (data : list value),
       ∃ train test,
         main_split RandomState permutation training_seed data = Ok (train, test) ∧
         train ++ test ≡ₚ DataFrame data).
Proof.
  intros claim.
  destruct (claim unit Sample.seeded Sample.reversing reversing_shuffles 7%Z
              [Spec.pair_of_record Sample.full_record])
    as (train & test & Hsplit & _).
  unfold main_split in Hsplit.
  rewrite train_test_split_short in Hsplit by (rewrite length_DataFrame; simpl; lia).
  discriminate Hsplit.
Qed.

(** C5, as stated, fails: of one formatted record no tenth is taken, the
    call raises [ValueError]. *)
Lemma split_of_one_row_has_no_sizes :
  ¬ (∀ (rng : Type) (RandomState : Z → rng) (permutation : rng → nat → list nat),
       (∀ g n, permutation g n ≡ₚ seq 0 n) →
       ∀ (training_seed : Z) (data : list value),
       ∃ train test,
         main_split RandomState permutation training_seed data = Ok (train, test) ∧
         length test = tenth_up (length data) ∧
         length train = length data - tenth_up (length data)).
Proof.
  intros claim.
  destruct (claim unit Sample.seeded Sample.reversing reversing_shuffles 7%Z
              [Spec.pair_of_record Sample.partial_record])
    as (train & test & Hsplit & _).
  unfold main_split in Hsplit.
  rewrite train_test_split_short in Hsplit by (rewrite length_DataFrame; simpl; lia).
  discriminate Hsplit.
Qed.

End SplitFacts.

(** ** The command line *)

Module CliFacts.
Import Frame Cli Spec Vocabulary.
Local Open Scope list_scope.
Local Arguments String.prefix : simpl never.
Local Arguments split_eq : simpl never.

Lemma omap_cons {A B} (f : A → option B) x l :
  omap f (x :: l) = match f x with Some y => y :: omap f l | None => omap f l end.
Proof. reflexivity. Qed.

Lemma split_eq_cons c s :
  split_eq (String c s) =
  if Ascii.eqb c "=" then (EmptyString, Some s)
  else (String c (fst (split_eq s)), snd (split_eq s)).
Proof.
  change (split_eq (String c s)) with
    (if Ascii.eqb c "=" then (EmptyString, Some s)
     else let '(before, after) := split_eq s in (String c before, after)).
  by destruct (split_eq s).
Qed.

Lemma split_eq_dashes r :
  split_eq (String "-" (String "-" r))
  = (String "-" (String "-" (fst (split_eq r))), snd (split_eq r)).
Proof. by rewrite !split_eq_cons. Qed.

Lemma prefix_nil s : String.prefix "" s = true.
Proof. by destruct s. Qed.

Lemma prefix_cons c s c' s' :
  String.prefix (String c s) (String c' s')
  = if ascii_dec c c' then String.prefix s s' else false.
Proof. reflexivity. Qed.

Lemma string_eqb_cons a s b t :
  String.eqb (String a s) (String b t) = if Ascii.eqb a b then String.eqb s t else false.
Proof. reflexivity. Qed.

Lemma get_option_tuples_dashes r :
  get_option_tuples (String "-" (String "-" r)) =
  (if String.prefix (fst (split_eq r)) "help" then [(Help, snd (split_eq r))] else [])
  ++ (if String.prefix (fst (split_eq r)) "data_path"
      then [(DataPath, snd (split_eq r))] else []).
Proof.
  unfold get_option_tuples. rewrite split_eq_dashes.
  change (Ascii.eqb "-" "-" && Ascii.eqb "-" "-") with true. cbv iota beta.
  unfold option_string_actions. rewrite !omap_cons.
  change (String.prefix (String "-" (String "-" (split_eq r).1)) "-h") with false.
  change (String.prefix (String "-" (String "-" (split_eq r).1)) "--help")
    with (String.prefix (split_eq r).1 "help").
  change (String.prefix (String "-" (String "-" (split_eq r).1)) "--data_path")
    with (String.prefix (split_eq r).1 "data_path").
  by destruct (String.prefix _ "help"), (String.prefix _ "data_path").
Qed.

Lemma get_option_tuples_dash c r :
  c ≠ "-"%char →
  Forall (λ x, x.1 = Help) (get_option_tuples (String "-" (String c r))).
Proof.
  intros Hc. unfold get_option_tuples.
  apply Ascii.eqb_neq in Hc as Hc'. rewrite Hc'.
  change (Ascii.eqb "-" "-") with true. cbv iota beta. simpl andb. cbv iota.
  unfold option_string_actions. rewrite !omap_cons.
  set (short := substring 0 2 _). set (ex := substring 2 _ _).
  assert (∀ o, String.eqb (String "-" (String "-" o)) short = false) as He.
  { intros o. unfold short.
    change (substring 0 2 (String "-" (String c r)))
      with (String "-" (String c (substring 0 0 r))).
    rewrite !string_eqb_cons. change (Ascii.eqb "-" "-") with true. cbv iota.
    rewrite Ascii.eqb_sym. by rewrite Hc'. }
  rewrite !He.
  assert (∀ o, String.prefix (String "-" (String c r)) (String "-" (String "-" o)) = false) as Hp.
  { intros o. rewrite !prefix_cons. simpl. by destruct (ascii_dec c "-"). }
  rewrite !Hp. simpl omap.
  destruct (String.eqb "-h" short); [by repeat constructor|].
  destruct (String.prefix _ "-h"); by repeat constructor.
Qed.

Lemma lookup_action_table s :
  lookup_action s option_string_actions =
  if String.eqb s "-h" then Some Help
  else if String.eqb s "--help" then Some Help
  else if String.eqb s "--data_path" then Some DataPath
  else None.
Proof. reflexivity. Qed.

Lemma lookup_action_DataPath s :
  lookup_action s option_string_actions = Some DataPath → s = "--data_path".
Proof.
  rewrite lookup_action_table.
  destruct (String.eqb_spec s "-h"); [done|].
  destruct (String.eqb_spec s "--help"); [done|].
  by destruct (String.eqb_spec s "--data_path").
Qed.

(** Only an argument that names the data-path option selects its action,
    and the explicit value is what follows the first [=]. *)
Lemma parse_optional_data_path t e :
  parse_optional t = Optional (Some DataPath) e →
  names_data_path t = true ∧ e = snd (split_eq t).
Proof.
  intros H. destruct t as [|c rest]; [done|].
  unfold parse_optional in H.
  destruct (Ascii.eqb_spec c "-") as [->|Hc]; [|done].
  cbv [negb] in H.
  destruct (lookup_action (String "-" rest) option_string_actions) as [a|] eqn:Hl.
  { injection H as -> <-. apply lookup_action_DataPath in Hl as ->. done. }
  destruct rest as [|c2 r]; [done|].
  destruct (split_eq (String "-" (String c2 r))) as [o e'] eqn:Hs.
  destruct (if contains "=" (String "-" (String c2 r))
            then lookup_action o option_string_actions else None) as [a|] eqn:Hl'.
  { injection H as -> <-.
    destruct (contains "=" _); [|done].
    apply lookup_action_DataPath in Hl' as ->.
    unfold names_data_path. by rewrite Hs. }
  destruct (Ascii.eqb_spec c2 "-") as [->|Hc2].
  - rewrite get_option_tuples_dashes in H.
    rewrite split_eq_dashes in Hs. injection Hs as <- <-.
    unfold names_data_path. rewrite split_eq_dashes. cbn [fst snd].
    destruct (String.prefix (split_eq r).1 "help") eqn:Hh,
             (String.prefix (split_eq r).1 "data_path") eqn:Hd;
      cbn [app] in H; try done.
    + injection H as <-. split; [|done].
      change (String.prefix "--d" (String "-" (String "-" (split_eq r).1)))
        with (String.prefix "d" (split_eq r).1).
      change (String.prefix (String "-" (String "-" (split_eq r).1)) "--data_path")
        with (String.prefix (split_eq r).1 "data_path").
      rewrite Hd. destruct ((split_eq r).1) as [|c3 b]; [done|].
      rewrite prefix_cons in Hd. rewrite prefix_cons.
      destruct (ascii_dec c3 "d") as [->|]; [|done].
      destruct (ascii_dec "d" "d"); [|done]. by rewrite prefix_nil.
    + destruct (negative_number _); [done|]. by destruct (contains " " _).
  - pose proof (get_option_tuples_dash c2 r Hc2) as HF.
    destruct (get_option_tuples _) as [|[a0 e0] [|? ?]].
    + destruct (negative_number _); [done|]. by destruct (contains " " _).
    + apply Forall_inv in HF. simpl in HF. subst a0. done.
    + done.
Qed.

Lemma supplies_cons a argv path : supplies argv path → supplies (a :: argv) path.
Proof.
  intros (before & arg & after & -> & Hn & Hs).
  exists (a :: before), arg, after. by split.
Qed.

Lemma supplies_here arg after e path :
  parse_optional arg = Optional (Some DataPath) e →
  (e = Some path ∨ (e = None ∧ ∃ rest, after = path :: rest)) →
  supplies (arg :: after) path.
Proof.
  intros [Hn ->]%parse_optional_data_path Hv.
  exists [], arg, after. by split.
Qed.

(** One turn of the loop. *)
Lemma consume_cons arg rest dp extras :
  consume (arg :: rest) dp extras =
  if String.eqb arg "--" then finish dp (extras ++ arg :: rest)
  else
    match parse_optional arg with
    | Ambiguous => SystemExit
    | Positional => consume rest dp (extras ++ [arg])
    | Optional None _ => consume rest dp (extras ++ [arg])
    | Optional (Some Help) _ => SystemExit
    | Optional (Some DataPath) (Some v) => consume rest (Some v) extras
    | Optional (Some DataPath) None =>
        match rest with
        | [] => SystemExit
        | v :: rest' =>
            if String.eqb v "--" then SystemExit
            else
              match parse_optional v with
              | Positional => consume rest' (Some v) extras
              | _ => SystemExit
              end
        end
    end.
Proof. reflexivity. Qed.

Lemma finish_Parsed dp0 extras dp remaining :
  finish dp0 extras = Parsed dp remaining → dp0 = Some dp.
Proof. destruct dp0; simpl; congruence. Qed.

(** Where the data path of a successful parse comes from. *)
Lemma consume_Parsed n : ∀ args dp0 extras dp remaining,
  (length args ≤ n)%nat →
  consume args dp0 extras = Parsed dp remaining →
  dp0 = Some dp ∨ supplies args dp.
Proof.
  induction n as [|n IH]; intros args dp0 extras dp remaining Hlen H.
  { destruct args; [|simpl in Hlen; lia]. left. by apply finish_Parsed in H. }
  destruct args as [|arg rest].
  { left. by apply finish_Parsed in H. }
  simpl in Hlen. rewrite consume_cons in H.
  destruct (String.eqb arg "--").
  { left. by apply finish_Parsed in H. }
  destruct (parse_optional arg) as [|[[|]|] [v|]|] eqn:Hp; try done.
  - destruct (IH rest dp0 _ dp remaining ltac:(lia) H) as [?|?]; [by left|].
    right. by apply supplies_cons.
  - destruct (IH rest (Some v) _ dp remaining ltac:(lia) H) as [[= ->]|?].
    + right. apply (supplies_here _ _ _ _ Hp). by left.
    + right. by apply supplies_cons.
  - right. destruct rest as [|v rest']; [done|].
    destruct (String.eqb v "--"); [done|].
    destruct (parse_optional v); try done.
    simpl in Hlen.
    destruct (IH rest' (Some v) _ dp remaining ltac:(lia) H) as [[= ->]|?].
    + apply (supplies_here _ _ _ _ Hp). right. split; [done|]. by exists rest'.
    + by do 2 apply supplies_cons.
  - destruct (IH rest dp0 _ dp remaining ltac:(lia) H) as [?|?]; [by left|].
    right. by apply supplies_cons.
  - destruct (IH rest dp0 _ dp remaining ltac:(lia) H) as [?|?]; [by left|].
    right. by apply supplies_cons.
Qed.

Lemma parse_known_args_Parsed argv dp remaining :
  parse_known_args argv = Parsed dp remaining → supplies argv dp.
Proof.
  intros H. by destruct (consume_Parsed (length argv) argv None [] dp remaining) as [?|?].
Qed.

Lemma supplies_names argv path :
  supplies argv path → Exists (λ arg, names_data_path arg = true) argv.
Proof.
  intros (before & arg & after & -> & Hn & _).
  apply Exists_app. right. by constructor.
Qed.

(** Arguments that are none of this parser's options are set aside. *)
Lemma consume_passed_through before rest dp extras :
  Forall passed_through before →
  consume (before ++ rest) dp extras = consume rest dp (extras ++ before).
Proof.
  intros Hall. revert extras.
  induction Hall as [|arg before [Hsep Hkind] _ IH]; intros extras.
  { by rewrite app_nil_r. }
  rewrite <- app_comm_cons, consume_cons.
  apply String.eqb_neq in Hsep as ->.
  destruct Hkind as [-> | [e ->]]; rewrite IH; by rewrite <- app_assoc.
Qed.

Lemma consume_data_path path after extras dp :
  parse_optional path = Positional → path ≠ "--" →
  Forall passed_through after →
  consume ("--data_path" :: path :: after) dp extras = Parsed path (extras ++ after).
Proof.
  intros Hpos Hsep Hall. rewrite consume_cons.
  change (String.eqb "--data_path" "--") with false.
  change (parse_optional "--data_path") with (Optional (Some DataPath) None).
  cbv iota. apply String.eqb_neq in Hsep as ->. rewrite Hpos.
  rewrite <- (app_nil_r after) at 1. by rewrite consume_passed_through.
Qed.

Lemma consume_data_path_eq path after extras dp :
  Forall passed_through after →
  consume (("--data_path=" +:+ path) :: after) dp extras = Parsed path (extras ++ after).
Proof.
  intros Hall. rewrite consume_cons.
  change (String.eqb ("--data_path=" +:+ path) "--") with false.
  change (parse_optional ("--data_path=" +:+ path))
    with (Optional (Some DataPath) (Some path)).
  cbv iota. rewrite <- (app_nil_r after) at 1.
  by rewrite consume_passed_through.
Qed.

(** C7, as stated, fails: a command line that nowhere spells [--data_path]
    is accepted when it abbreviates the flag, and the file named after the
    abbreviation is read. *)
Lemma abbreviated_flag_is_accepted :
  ¬ (∀ (h4_parse : list string → option unit)
       (fs : string → option (list record)) (argv : list string),
       Forall (λ arg, spells_data_path arg = false) argv →
       parse_known_args argv = SystemExit ∧ main_load h4_parse fs argv = Exited).
Proof.
  intros claim.
  destruct (claim (λ _, Some ()) Sample.files ["--data"; "train.jsonl"; "recipe.yaml"])
    as [Hexit _].
  - by repeat constructor.
  - assert (parse_known_args ["--data"; "train.jsonl"; "recipe.yaml"]
            = Parsed "train.jsonl" ["recipe.yaml"]) as Hrun by reflexivity.
    rewrite Hexit in Hrun. discriminate Hrun.
Qed.

Lemma no_dash_positional (path : string) :
  begins_with_dash path = false → parse_optional path = Positional ∧ path ≠ "--".
Proof.
  destruct path as [|c rest]; [done|]. cbn [begins_with_dash]. intros Hc. split.
  - unfold parse_optional. by rewrite Hc.
  - intros [= -> _]. discriminate Hc.
Qed.

(** C7, amended.  A command line none of whose arguments names the
    data-path option (as [--data_path], as an abbreviation [--d...] of it,
    or as either followed by [=value]) ends in [SystemExit] and loads
    nothing.  Whenever a file is read, its path is the value the command
    line supplies with such an argument.  Among arguments that are neither
    [--] nor options of this parser, and once the configuration parser
    accepts those: [--data_path=PATH] reads PATH, whatever PATH is;
    [--data_path PATH] reads PATH when PATH is read as a positional and is
    not [--]; and every PATH that does not begin with a dash is of that
    kind. *)
Theorem data_path_decides_input {config : Type}
    (h4_parse : list string → option config)
    (fs : string → option (list record)) :
  (∀ argv,
     Forall (λ arg, names_data_path arg = false) argv →
     parse_known_args argv = SystemExit ∧ main_load h4_parse fs argv = Exited)
  ∧
  (∀ argv frame,
     main_load h4_parse fs argv = ReadJson frame →
     ∃ path, supplies argv path ∧ frame = read_json fs path)
  ∧
  (∀ before path after cfg,
     Forall passed_through before → Forall passed_through after →
     h4_parse (before ++ after) = Some cfg →
     main_load h4_parse fs (before ++ ("--data_path=" +:+ path) :: after)
       = ReadJson (read_json fs path))
  ∧
  (∀ before path after cfg,
     Forall passed_through before → Forall passed_through after →
     h4_parse (before ++ after) = Some cfg →
     parse_optional path = Positional → path ≠ "--" →
     main_load h4_parse fs (before ++ "--data_path" :: path :: after)
       = ReadJson (read_json fs path))
  ∧
  (∀ path,
     begins_with_dash path = false →
     parse_optional path = Positional ∧ path ≠ "--").
Proof.
  split; [|split; [|split; [|split]]].
  - intros argv Hnone.
    assert (parse_known_args argv = SystemExit) as Hexit.
    { destruct (parse_known_args argv) as [dp remaining|] eqn:Hp; [|done].
      apply parse_known_args_Parsed, supplies_names, Exists_exists in Hp
        as (arg & Hin & Hname).
      rewrite Forall_forall in Hnone. rewrite (Hnone _ Hin) in Hname. done. }
    split; [done|]. unfold main_load. by rewrite Hexit.
  - intros argv frame Hload. unfold main_load in Hload.
    destruct (parse_known_args argv) as [dp remaining|] eqn:Hp; [|done].
    destruct (h4_parse remaining); [|done].
    injection Hload as <-. exists dp. split; [|done].
    by apply parse_known_args_Parsed in Hp.
  - intros before path after cfg Hbefore Hafter Hcfg.
    unfold main_load, parse_known_args.
    rewrite consume_passed_through by done.
    rewrite consume_data_path_eq by done.
    cbn [app]. by rewrite Hcfg.
  - intros before path after cfg Hbefore Hafter Hcfg Hpos Hsep.
    unfold main_load, parse_known_args.
    rewrite consume_passed_through by done.
    rewrite consume_data_path by done.
    cbn [app]. by rewrite Hcfg.
  - apply no_dash_positional.
Qed.

Lemma passed_through_output_dir : Forall passed_through ["--output_dir"; "out"].
Proof.
  apply Forall_cons. split; [|apply Forall_cons; split; [|apply Forall_nil_2]].
  - split; [discriminate|]. right. by eexists.
  - split; [discriminate|]. by left.
Qed.

Lemma data_path_decides_input_sample :
  (parse_known_args ["--output_dir"; "out"] = SystemExit ∧
   main_load (λ _, Some ()) Sample.files ["--output_dir"; "out"] = Exited)
  ∧
  main_load (λ _, Some ()) Sample.files
    ["--output_dir"; "out"; "--data_path=-train.jsonl"; "--output_dir"; "out"]
    = ReadJson (read_json Sample.files "-train.jsonl")
  ∧
  main_load (λ _, Some ()) Sample.files
    ["--output_dir"; "out"; "--data_path"; "train.jsonl"; "--output_dir"; "out"]
    = ReadJson (read_json Sample.files "train.jsonl").
Proof.
  destruct (data_path_decides_input (λ _, Some ()) Sample.files)
    as (Hnone & _ & Hequals & Hgiven & Hplain).
  split; [|split].
  - apply Hnone. by repeat constructor.
  - apply (Hequals ["--output_dir"; "out"] "-train.jsonl" ["--output_dir"; "out"] ()).
    + apply passed_through_output_dir.
    + apply passed_through_output_dir.
    + reflexivity.
  - destruct (Hplain "train.jsonl") as [Hpos Hsep]; [reflexivity|].
    apply (Hgiven ["--output_dir"; "out"] "train.jsonl" ["--output_dir"; "out"] ());
      [apply passed_through_output_dir | apply passed_through_output_dir
      | reflexivity | exact Hpos | exact Hsep].
Defined.

End CliFacts.

(** ** The checkpoint to resume from *)

Module ResumeFacts.
Import Resume.

(** C10.  A configured [resume_from_checkpoint] wins; without one, a last
    checkpoint detected in the output directory is taken; without either,
    training starts from no checkpoint. *)
Theorem checkpoint_precedence :
  (∀ configured last_checkpoint,
     select_checkpoint (Some configured) last_checkpoint = Some configured) ∧
  (∀ detected, select_checkpoint None (Some detected) = Some detected) ∧
  select_checkpoint None None = None.
Proof. repeat split. Qed.

End ResumeFacts.

(** ** More on the formatter *)

Module FormatterMore.
Import Formatter Frame Spec Vocabulary FormatterFacts.
Local Open Scope list_scope.

(** X1.  A row is formatted exactly when it has the four labels.  When it
    is not, the exception is the [KeyError] of the first label, in the order
    [question], [first_trial_reasoning], [reflection_chosen],
    [reflection_rejected], that the row lacks: the labels before it were
    read, no other exception is raised. *)
Theorem format_row_first_missing (r : row) :
  ((∀ k, k ∈ required_fields → is_Some (r !! k)) ↔ ∃ out, format_row r = Ok out) ∧
  (∀ e, format_row r = Raise e →
     ∃ read k unread,
       required_fields = read ++ k :: unread ∧
       e = KeyError k ∧
       r !! k = None ∧
       ∀ k', k' ∈ read → is_Some (r !! k')).
Proof.
  split.
  - split.
    + intros Hall.
      destruct (Hall "question") as [cq Hq]; [repeat constructor|].
      destruct (Hall "first_trial_reasoning") as [ct Ht]; [repeat constructor|].
      destruct (Hall "reflection_chosen") as [cc Hc]; [repeat constructor|].
      destruct (Hall "reflection_rejected") as [cj Hj]; [repeat constructor|].
      eexists. by apply (format_row_cells _ _ _ _ _ Hq Ht Hc Hj).
    + intros [out (cq & ct & cc & cj & Hq & Ht & Hc & Hj & _)%format_row_Ok_inv] k Hk.
      unfold required_fields in Hk.
      repeat (apply elem_of_cons in Hk as [->|Hk]; [by eexists|]).
      by apply elem_of_nil in Hk.
  - intros e He.
    destruct (r !! "question") as [cq|] eqn:Hq; last first.
    { exists [], "question", ["first_trial_reasoning"; "reflection_chosen"; "reflection_rejected"].
      unfold format_row, build_user_prompt in He.
      rewrite (getitem_None _ _ Hq) in He. injection He as <-.
      repeat split; [done|]. intros k' Hk'. by apply elem_of_nil in Hk'. }
    destruct (r !! "first_trial_reasoning") as [ct|] eqn:Ht; last first.
    { exists ["question"], "first_trial_reasoning", ["reflection_chosen"; "reflection_rejected"].
      unfold format_row, build_user_prompt in He.
      rewrite (getitem_Some _ _ _ Hq), (getitem_None _ _ Ht) in He. injection He as <-.
      repeat split; [done|]. intros k' Hk'.
      repeat (apply elem_of_cons in Hk' as [->|Hk']; [by eexists|]).
      by apply elem_of_nil in Hk'. }
    destruct (r !! "reflection_chosen") as [cc|] eqn:Hc; last first.
    { exists ["question"; "first_trial_reasoning"], "reflection_chosen", ["reflection_rejected"].
      unfold format_row in He.
      rewrite (build_user_prompt_cells _ _ _ Hq Ht), (getitem_None _ _ Hc) in He.
      injection He as <-.
      repeat split; [done|]. intros k' Hk'.
      repeat (apply elem_of_cons in Hk' as [->|Hk']; [by eexists|]).
      by apply elem_of_nil in Hk'. }
    destruct (r !! "reflection_rejected") as [cj|] eqn:Hj; last first.
    { exists ["question"; "first_trial_reasoning"; "reflection_chosen"], "reflection_rejected", [].
      unfold format_row in He.
      rewrite (build_user_prompt_cells _ _ _ Hq Ht), (getitem_Some _ _ _ Hc),
        (getitem_None _ _ Hj) in He.
      injection He as <-.
      repeat split; [done|]. intros k' Hk'.
      repeat (apply elem_of_cons in Hk' as [->|Hk']; [by eexists|]).
      by apply elem_of_nil in Hk'. }
    by rewrite (format_row_cells _ _ _ _ _ Hq Ht Hc Hj) in He.
Qed.

Lemma format_rows_cons r rows :
  format_rows (r :: rows) =
  match format_row r with
  | Ok d => match format_rows rows with Ok ds => Ok (d :: ds) | Raise e => Raise e end
  | Raise e => Raise e
  end.
Proof. reflexivity. Qed.

(** X2.  The loop over the rows is all or nothing: it returns a list
    exactly when every row is formatted, and then the list holds the
    formatted rows one by one and in order; it raises [e] exactly when [e]
    is what the first row that cannot be formatted raises. *)
Theorem format_rows_first_failure (rows : list row) :
  (∀ out, format_rows rows = Ok out ↔ Forall2 (λ r d, format_row r = Ok d) rows out) ∧
  (∀ e, format_rows rows = Raise e ↔
     ∃ formatted r rest,
       rows = formatted ++ r :: rest ∧
       Forall (λ r', ∃ d, format_row r' = Ok d) formatted ∧
       format_row r = Raise e).
Proof.
  induction rows as [|r rows [IHok IHerr]].
  { split.
    - intros out. split.
      + intros [= <-]. constructor.
      + intros H. by inversion H.
    - intros e. split; [done|]. intros (formatted & r & rest & H & _). by destruct formatted. }
  split.
  - intros out. rewrite format_rows_cons. split.
    + destruct (format_row r) as [d|] eqn:Hr; [|done].
      destruct (format_rows rows) as [ds|] eqn:Hrows; [|done].
      intros [= <-]. constructor; [done|]. by apply IHok.
    + intros H. inversion H as [|? d ? ds Hr Hrest]; subst.
      rewrite Hr. apply IHok in Hrest. by rewrite Hrest.
  - intros e. rewrite format_rows_cons. split.
    + destruct (format_row r) as [d|e'] eqn:Hr.
      * destruct (format_rows rows) as [ds|e'] eqn:Hrows; [done|].
        intros [= ->]. destruct (proj1 (IHerr e) eq_refl) as (formatted & r' & rest & -> & Hall & He).
        exists (r :: formatted), r', rest. split; [done|]. split; [|done].
        constructor; [by eexists | done].
      * intros [= ->]. exists [], r, rows. by repeat split.
    + intros (formatted & r' & rest & Heq & Hall & He).
      destruct formatted as [|r0 formatted]; simpl in Heq; injection Heq as <- ->.
      * by rewrite He.
      * apply Forall_cons in Hall as [[d ->] Hall].
        rewrite (proj2 (IHerr e)); [done|]. by exists formatted, r', rest.
Qed.

Lemma of_cell_inj c c' : of_cell c = of_cell c' → c = c'.
Proof. destruct c, c'; simpl; congruence. Qed.

(** X3.  The formatter neither drops nor marks a degenerate pair: the
    [chosen] and the [rejected] conversation of a formatted record are the
    same exactly when the row holds the same value under
    [reflection_chosen] and [reflection_rejected]. *)
Theorem identical_reflections_kept (r : row) (out : value) :
  format_row r = Ok out →
  (field "chosen" out = field "rejected" out ↔
   r !! "reflection_chosen" = r !! "reflection_rejected").
Proof.
  intros (cq & ct & cc & cj & _ & _ & Hc & Hj & ->)%format_row_Ok_inv.
  rewrite Hc, Hj. split.
  - intros [= H]. by apply of_cell_inj in H as ->.
  - by intros [= ->].
Qed.

Lemma identical_reflections_kept_sample :
  field "chosen" (pair_of_record Sample.full_record)
    = field "rejected" (pair_of_record Sample.full_record) ↔
  Sample.full_row !! "reflection_chosen" = Sample.full_row !! "reflection_rejected".
Proof. apply (identical_reflections_kept Sample.full_row). reflexivity. Defined.

Lemma Ok_inj {A} (a b : A) : Ok a = Ok b → a = b.
Proof. by intros [= ->]. Qed.

Lemma append_cons c s s' : (String c s +:+ s') = String c (s +:+ s').
Proof. reflexivity. Qed.

(** A line break cannot sit inside a single-line question. *)
Lemma single_line_cons c s :
  single_line (String c s) → c ≠ ascii_of_nat 10 ∧ single_line s.
Proof.
  unfold single_line.
  change (Cli.contains (ascii_of_nat 10) (String c s))
    with (Ascii.eqb (ascii_of_nat 10) c || Cli.contains (ascii_of_nat 10) s).
  intros [H1 H2]%orb_false_elim. split; [|done].
  intros ->. by rewrite Ascii.eqb_refl in H1.
Qed.

Lemma first_line_inj q q' rest rest' :
  single_line q → single_line q' →
  (q +:+ newline +:+ rest) = (q' +:+ newline +:+ rest') →
  q = q' ∧ rest = rest'.
Proof.
  revert q'. induction q as [|c q IH]; intros [|c' q'] Hq Hq' H.
  - change (String (ascii_of_nat 10) rest = String (ascii_of_nat 10) rest') in H.
    by injection H as <-.
  - exfalso. apply single_line_cons in Hq' as [Hc _].
    change (String (ascii_of_nat 10) rest = String c' (q' +:+ newline +:+ rest')) in H.
    injection H as H _. by apply Hc.
  - exfalso. apply single_line_cons in Hq as [Hc _].
    change (String c (q +:+ newline +:+ rest) = String (ascii_of_nat 10) rest') in H.
    injection H as H _. by apply Hc.
  - apply single_line_cons in Hq as [_ Hq]. apply single_line_cons in Hq' as [_ Hq'].
    rewrite !append_cons in H. injection H as -> H.
    by destruct (IH q' Hq Hq' H) as [-> ->].
Qed.

Lemma interpolated_template_inj q t q' t' :
  single_line q → single_line q' →
  interpolated_template q t = interpolated_template q' t' →
  q = q' ∧ t = t'.
Proof.
  intros Hq Hq' H. unfold interpolated_template in H.
  do 4 apply (inj (String.append _)) in H.
  destruct (first_line_inj _ _ _ _ Hq Hq' H) as [-> H'].
  split; [done|]. by apply (inj (String.append _)) in H'.
Qed.

(** X4.  The prompt can be read back: two rows whose questions are strings
    without a line break and that get the same prompt have the same
    question and the same text of the first-trial reasoning. *)
Theorem prompt_determines_fields (r r' : row) (q q' : string) (prompt : string) :
  r !! "question" = Some (CStr q) → r' !! "question" = Some (CStr q') →
  single_line q → single_line q' →
  build_user_prompt r = Ok prompt → build_user_prompt r' = Ok prompt →
  q = q' ∧
  format <$> r !! "first_trial_reasoning" = format <$> r' !! "first_trial_reasoning".
Proof.
  intros Hq Hq' Hs Hs' Hp Hp'.
  destruct (r !! "first_trial_reasoning") as [ct|] eqn:Ht; last first.
  { unfold build_user_prompt in Hp.
    by rewrite (getitem_Some _ _ _ Hq), (getitem_None _ _ Ht) in Hp. }
  destruct (r' !! "first_trial_reasoning") as [ct'|] eqn:Ht'; last first.
  { unfold build_user_prompt in Hp'.
    by rewrite (getitem_Some _ _ _ Hq'), (getitem_None _ _ Ht') in Hp'. }
  rewrite (build_user_prompt_cells _ _ _ Hq Ht) in Hp.
  rewrite (build_user_prompt_cells _ _ _ Hq' Ht') in Hp'.
  pose proof (Ok_inj _ _ (eq_trans Hp (eq_sym Hp'))) as Heq.
  destruct (interpolated_template_inj _ _ _ _ Hs Hs' Heq) as [-> Hf].
  split; [done|]. simpl. by rewrite Hf.
Qed.

Lemma prompt_determines_fields_sample :
  "What is 2+2?" = "What is 2+2?" ∧
  format <$> Sample.full_row !! "first_trial_reasoning"
    = format <$> Sample.full_row !! "first_trial_reasoning".
Proof.
  apply (prompt_determines_fields Sample.full_row Sample.full_row
           "What is 2+2?" "What is 2+2?"
           (interpolated_template "What is 2+2?" "I answered 5."));
    reflexivity.
Defined.

End FormatterMore.

(** ** From the file to the datasets *)

Module DatasetsFacts.
Import Formatter Frame Split Datasets Spec Vocabulary FormatterFacts FrameFacts SplitFacts.
Local Open Scope nat_scope.
Local Open Scope list_scope.

Lemma carried_columns recs k : carried recs k ↔ k ∈ columns recs.
Proof. symmetry. apply elem_of_columns. Qed.

Lemma formatted_data_carried (recs : list record) :
  recs = [] ∨ (∀ k, k ∈ required_fields → carried recs k) →
  formatted_data recs = Ok (pair_of_record <$> recs).
Proof.
  intros [->|Hall]; [done|]. apply formatted_data_columns.
  intros k Hk. by apply carried_columns, Hall.
Qed.

(** X5.  Formatting a whole file succeeds exactly when the file is empty or
    each of the four required fields is carried by at least one of its
    records, and then it yields one formatted record per input record.  The
    only exception it raises is the [KeyError] of a required field that no
    record carries. *)
Theorem formatted_data_outcome (recs : list record) :
  ((recs = [] ∨ (∀ k, k ∈ required_fields → carried recs k))
   ↔ ∃ out, formatted_data recs = Ok out) ∧
  (∀ out, formatted_data recs = Ok out → length out = length recs) ∧
  (∀ e, formatted_data recs = Raise e →
     ∃ k, e = KeyError k ∧ k ∈ required_fields ∧ ¬ carried recs k).
Proof.
  destruct (decide (Forall (λ k, k ∈ columns recs) required_fields)) as [Hall|Hsome].
  - rewrite Forall_forall in Hall.
    rewrite (formatted_data_columns recs Hall). split; [|split; [|done]].
    + split; [by eexists|]. intros _. right. intros k Hk. by apply carried_columns, Hall.
    + intros out [= <-]. by rewrite length_fmap.
  - apply not_Forall_Exists, Exists_exists in Hsome as (k & Hk & Hcol); [|apply _].
    destruct recs as [|rec recs].
    { split; [|split; [|done]].
      - split; [by eexists | by left].
      - by intros out [= <-]. }
    destruct (formatted_data_no_column (rec :: recs) k) as (k' & Hk' & Hcol' & Hraise);
      [done..|].
    rewrite Hraise. split; [|split; [done|]].
    + split; [|by intros [out ?]]. intros [?|Hall]; [done|].
      exfalso. by apply Hcol, carried_columns, Hall.
    + intros e [= <-]. exists k'. split; [done|]. split; [done|].
      by rewrite carried_columns.
Qed.

Lemma DataFrame_fmap {A} (f : A → value) (l : list A) :
  DataFrame (f <$> l) = imap (λ i x, (i, f x)) l.
Proof. unfold DataFrame. by rewrite imap_fmap. Qed.

Lemma raw_datasets_short {rng} (RandomState : Z → rng) permutation seed recs :
  (recs = [] ∨ ∀ k, k ∈ required_fields → carried recs k) →
  length recs ≤ 1 →
  raw_datasets RandomState permutation seed recs
  = Raise (ValueError "the resulting train set will be empty").
Proof.
  intros Hcols Hn. unfold raw_datasets.
  rewrite (formatted_data_carried recs Hcols).
  cbn [bind]. unfold main_split.
  apply train_test_split_short. by rewrite length_DataFrame, length_fmap.
Qed.

(** X7.  How lines 101-126 fail.  A file with records of which none
    carries some required field stops with the [KeyError] of such a field,
    before any split.  A file that is formatted but has fewer than two
    records (the empty file, or one record) stops with the [ValueError] of
    the split. *)
Theorem raw_datasets_errors {rng : Type} (RandomState : Z → rng)
    (permutation : rng → nat → list nat) (training_seed : Z) (recs : list record) :
  (recs ≠ [] → (∃ k, k ∈ required_fields ∧ ¬ carried recs k) →
     ∃ k, k ∈ required_fields ∧ ¬ carried recs k ∧
          raw_datasets RandomState permutation training_seed recs = Raise (KeyError k))
  ∧
  ((recs = [] ∨ ∀ k, k ∈ required_fields → carried recs k) →
   length recs ≤ 1 →
   raw_datasets RandomState permutation training_seed recs
   = Raise (ValueError "the resulting train set will be empty")).
Proof.
  split; [|apply raw_datasets_short].
  intros Hne (k & Hk & Hnot).
  destruct (formatted_data_no_column recs k) as (k' & Hk' & Hcol' & Hraise); [done..| |].
  { by rewrite <- carried_columns. }
  exists k'. split; [done|]. split; [by rewrite carried_columns|].
  unfold raw_datasets. by rewrite Hraise.
Qed.

Lemma raw_datasets_errors_sample :
  (∃ k, k ∈ required_fields ∧ ¬ carried [Sample.partial_record] k ∧
        raw_datasets Sample.seeded Sample.reversing 7 [Sample.partial_record]
        = Raise (KeyError k))
  ∧
  raw_datasets Sample.seeded Sample.reversing 7 [Sample.full_record]
  = Raise (ValueError "the resulting train set will be empty").
Proof.
  split.
  - apply (raw_datasets_errors Sample.seeded Sample.reversing 7 [Sample.partial_record]).
    + discriminate.
    + exists "reflection_chosen". split.
      * unfold required_fields.
        repeat first [apply list_elem_of_here | apply list_elem_of_further].
      * intros (rec & ->%list_elem_of_singleton & [x Hx]). discriminate Hx.
  - apply (raw_datasets_errors Sample.seeded Sample.reversing 7 [Sample.full_record]).
    + right. intros k Hk. exists Sample.full_record. split; [apply list_elem_of_here|].
      unfold required_fields in Hk.
      repeat (apply elem_of_cons in Hk as [->|Hk]; [by eexists|]).
      by apply elem_of_nil in Hk.
    + simpl. lia.
Defined.

Section with_generator.

Context {rng : Type}.
Variable RandomState : Z → rng.
Variable permutation : rng → nat → list nat.
Hypothesis permutation_shuffles : ∀ g n, permutation g n ≡ₚ seq 0 n.

(** The two frames of the split, for a file whose required columns are
    text. *)
Lemma raw_datasets_text (training_seed : Z) (recs : list record) :
  text_columns recs →
  2 ≤ length recs →
  ∃ train test,
    raw_datasets RandomState permutation training_seed recs = Ok (train, test) ∧
    train ++ test ≡ₚ imap (λ i rec, (i, pair_of_record rec)) recs ∧
    length test = tenth_up (length recs) ∧
    length train = length recs - tenth_up (length recs).
Proof.
  intros Htext Hn. unfold raw_datasets.
  rewrite (formatted_data_text recs Htext).
  cbn [bind]. unfold main_split.
  assert (2 ≤ length (DataFrame (pair_of_record <$> recs))) as Hn'.
  { by rewrite length_DataFrame, length_fmap. }
  destruct (train_test_split_tenth RandomState permutation permutation_shuffles
              (RandomState training_seed) _ (RsInt 42) Hn')
    as (train & test & Hsplit & _ & Htest & Htrain).
  exists train, test. split; [done|].
  rewrite length_DataFrame, length_fmap in Htest, Htrain.
  split; [|done].
  rewrite <- DataFrame_fmap.
  by apply (train_test_split_permutation RandomState permutation permutation_shuffles
              _ _ _ _ _ Hn' Hsplit).
Qed.

Lemma length_from_pandas df : length (from_pandas df) = length df.
Proof. apply length_fmap. Qed.

(** X6.  From the file to the two datasets.  When the four required
    columns are text and there are at least two records, the rows of the
    train and the test dataset together are exactly the formatted input
    records as a dataset stores them (nan as null), each under the position
    it has in the file, and the test dataset has the tenth of them, rounded
    up. *)
Theorem dataset_dict_rows (training_seed : Z) (recs : list record) :
  text_columns recs →
  2 ≤ length recs →
  ∃ train test,
    dataset_dict RandomState permutation training_seed recs = Ok (train, test) ∧
    train ++ test ≡ₚ imap (λ i rec, (i, store (pair_of_record rec))) recs ∧
    length test = tenth_up (length recs) ∧
    length train = length recs - tenth_up (length recs).
Proof.
  intros Htext Hn.
  destruct (raw_datasets_text training_seed recs Htext Hn)
    as (train & test & Hraw & Hperm & Htest & Htrain).
  exists (from_pandas train), (from_pandas test).
  split; [unfold dataset_dict; by rewrite Hraw|].
  rewrite !length_from_pandas. split; [|done].
  unfold from_pandas. rewrite <- fmap_app, Hperm. by rewrite fmap_imap.
Qed.

End with_generator.

Lemma full_record_text (recs : list record) :
  text_columns (Sample.full_record :: recs).
Proof.
  intros k Hk. unfold required_fields in Hk.
  repeat (apply elem_of_cons in Hk as [->|Hk];
          [eexists Sample.full_record, _;
           split; [apply list_elem_of_here|]; split; reflexivity|]).
  by apply elem_of_nil in Hk.
Qed.

Lemma four_records_text : text_columns MoreSamples.four_records.
Proof. apply full_record_text. Qed.

Lemma dataset_dict_rows_sample :
  ∃ train test,
    dataset_dict Sample.seeded Sample.reversing 7 MoreSamples.four_records
      = Ok (train, test) ∧
    train ++ test
      ≡ₚ imap (λ i rec, (i, store (pair_of_record rec))) MoreSamples.four_records ∧
    length test = tenth_up 4 ∧
    length train = 4 - tenth_up 4.
Proof.
  apply (dataset_dict_rows Sample.seeded Sample.reversing reversing_shuffles
           7 MoreSamples.four_records).
  - apply four_records_text.
  - simpl. lia.
Defined.

End DatasetsFacts.

(** ** The samples that are logged *)

Module SamplesFacts.
Import Formatter Frame Split Datasets Spec Vocabulary.
Import FormatterFacts FrameFacts SplitFacts DatasetsFacts.
Local Open Scope nat_scope.
Local Open Scope list_scope.

Lemma dataset_map_cons {A B} (f : A → result B) r rows :
  dataset_map f (r :: rows) =
  match f r with
  | Ok x => match dataset_map f rows with Ok xs => Ok (x :: xs) | Raise e => Raise e end
  | Raise e => Raise e
  end.
Proof. reflexivity. Qed.

Lemma dataset_map_Ok {A B} (f : A → result B) rows out :
  dataset_map f rows = Ok out ↔ Forall2 (λ r x, f r = Ok x) rows out.
Proof.
  revert out. induction rows as [|r rows IH]; intros out.
  - split; [intros [= <-]; constructor | by inversion 1].
  - rewrite dataset_map_cons. split.
    + destruct (f r) as [x|] eqn:Hr; [|done].
      destruct (dataset_map f rows) as [xs|] eqn:Hrows; [|done].
      intros [= <-]. constructor; [done|]. by apply IH.
    + inversion 1 as [|? x ? xs Hr Hrest]; subst.
      rewrite Hr. apply IH in Hrest. by rewrite Hrest.
Qed.

Lemma dataset_map_length {A B} (f : A → result B) rows out :
  dataset_map f rows = Ok out → length out = length rows.
Proof. intros H%dataset_map_Ok. symmetry. by eapply Forall2_length. Qed.

Lemma dataset_map_total {A B} (f : A → result B) rows :
  Forall (λ r, ∃ x, f r = Ok x) rows → ∃ out, dataset_map f rows = Ok out.
Proof.
  induction 1 as [|r rows [x Hx] _ [out IH]]; [by eexists|].
  exists (x :: out). by rewrite dataset_map_cons, Hx, IH.
Qed.

Lemma log_samples_short {pyrng A} (sample : pyrng → nat → nat → list nat) g (train : list A) :
  length train < 3 →
  log_samples sample g train
  = Raise (ValueError "Sample larger than population or is negative").
Proof.
  intros Hn. unfold log_samples, random_sample.
  destruct (Nat.leb_spec 3 (length train)) as [?|_]; [lia|]. done.
Qed.

Section with_generators.

Context {rng pyrng : Type}.
Variable RandomState : Z → rng.
Variable permutation : rng → nat → list nat.
Variable sample : pyrng → nat → nat → list nat.

Hypothesis permutation_shuffles : ∀ g n, permutation g n ≡ₚ seq 0 n.

(** What Python documents of a successful [random.sample(range(n), k)]. *)
Hypothesis sample_draws : ∀ g n k,
  k ≤ n → length (sample g n k) = k ∧ NoDup (sample g n k) ∧ Forall (λ i, i < n) (sample g n k).

Lemma log_samples_enough {A : Type} (g : pyrng) (train : list A) :
  3 ≤ length train →
  ∃ logged, log_samples sample g train = Ok logged ∧ length logged = 3.
Proof.
  intros Hn. destruct (sample_draws g (length train) 3 Hn) as (Hlen & _ & Hrange).
  unfold log_samples, random_sample.
  destruct (Nat.leb_spec 3 (length train)) as [_|?]; [|lia]. cbn [bind].
  destruct (dataset_map_total (getitem_row train) (sample g (length train) 3)) as [logged Hlog].
  { eapply Forall_impl; [exact Hrange|]. intros i Hi. simpl in Hi.
    apply lookup_lt_is_Some in Hi as [x Hx]. exists x. unfold getitem_row. by rewrite Hx. }
  exists logged. split; [done|]. by rewrite (dataset_map_length _ _ _ Hlog).
Qed.

(** X8.  Logging the samples needs three train rows: with fewer,
    [random.sample] raises [ValueError]; with three or more, exactly three
    rows are logged and they sit at three different positions of the train
    set. *)
Theorem log_samples_outcome {A : Type} (g : pyrng) (train : list A) :
  (length train < 3 →
     log_samples sample g train
     = Raise (ValueError "Sample larger than population or is negative")) ∧
  (3 ≤ length train →
     ∃ indices logged,
       log_samples sample g train = Ok logged ∧
       length logged = 3 ∧
       NoDup indices ∧
       Forall2 (λ i row, train !! i = Some row) indices logged).
Proof.
  split; [apply log_samples_short|].
  intros Hn. destruct (sample_draws g (length train) 3 Hn) as (Hlen & Hnodup & Hrange).
  unfold log_samples, random_sample.
  destruct (Nat.leb_spec 3 (length train)) as [_|?]; [|lia]. cbn [bind].
  destruct (dataset_map_total (getitem_row train) (sample g (length train) 3)) as [logged Hlog].
  { eapply Forall_impl; [exact Hrange|]. intros i Hi. simpl in Hi.
    apply lookup_lt_is_Some in Hi as [x Hx]. exists x. unfold getitem_row. by rewrite Hx. }
  exists (sample g (length train) 3), logged. split; [done|].
  split; [by rewrite (dataset_map_length _ _ _ Hlog)|]. split; [done|].
  apply dataset_map_Ok in Hlog. eapply Forall2_impl; [exact Hlog|].
  intros i row. unfold getitem_row. by destruct (train !! i) as [x|]; intros [= ->].
Qed.

(** X9.  Four records are the least the script gets through with.  A file
    whose required columns are text and that has two or three records is
    formatted, split and turned into the two datasets, but then the run
    cannot pass line 188, whatever the chat template does; from four records
    on, and with a chat template that accepts every row, both datasets keep
    their sizes and three samples are logged. *)
Theorem at_least_four_records (training_seed : Z) (recs : list record) :
  text_columns recs →
  2 ≤ length recs →
  ∃ train test,
    dataset_dict RandomState permutation training_seed recs = Ok (train, test) ∧
    (length recs < 4 →
       ∀ (B : Type) (apply_chat_template : nat * stored → result B) (g : pyrng),
       ∃ e, templated_and_logged sample apply_chat_template g (train, test) = Raise e) ∧
    (4 ≤ length recs →
       ∀ (B : Type) (apply_chat_template : nat * stored → result B) (g : pyrng),
       (∀ row, ∃ text, apply_chat_template row = Ok text) →
       ∃ train' test' logged,
         templated_and_logged sample apply_chat_template g (train, test)
           = Ok ((train', test'), logged) ∧
         length train' = length recs - tenth_up (length recs) ∧
         length test' = tenth_up (length recs) ∧
         length logged = 3).
Proof.
  intros Htext Hn.
  destruct (raw_datasets_text RandomState permutation permutation_shuffles
              training_seed recs Htext Hn) as (train0 & test0 & Hraw & _ & Htest0 & Htrain0).
  pose proof (tenth_up_bounds (length recs)) as Hb.
  exists (from_pandas train0), (from_pandas test0).
  split; [unfold dataset_dict; by rewrite Hraw|].
  pose proof (length_from_pandas train0) as Htrain.
  pose proof (length_from_pandas test0) as Htest.
  rewrite Htrain0 in Htrain. rewrite Htest0 in Htest.
  generalize dependent (from_pandas test0). generalize dependent (from_pandas train0).
  intros train Htrain test Htest. split.
  - intros Hsmall B chat g. unfold templated_and_logged. cbn [fst snd].
    destruct (dataset_map chat train) as [train'|e] eqn:Htr; [|by eexists].
    destruct (dataset_map chat test) as [test'|e] eqn:Hte; [|by eexists].
    cbn [bind]. rewrite log_samples_short; [by eexists|].
    rewrite (dataset_map_length _ _ _ Htr). lia.
  - intros Hbig B chat g Htotal. unfold templated_and_logged. cbn [fst snd].
    destruct (dataset_map_total chat train) as [train' Htr].
    { apply Forall_forall. intros row _. apply Htotal. }
    destruct (dataset_map_total chat test) as [test' Hte].
    { apply Forall_forall. intros row _. apply Htotal. }
    rewrite Htr, Hte. cbn [bind].
    pose proof (dataset_map_length _ _ _ Htr) as Hlt.
    pose proof (dataset_map_length _ _ _ Hte) as Hle.
    destruct (log_samples_enough g train') as (logged & Hlog & Hlen).
    { lia. }
    rewrite Hlog. exists train', test', logged. split; [done|]. lia.
Qed.

End with_generators.

Lemma first_positions_draws (g : unit) (n k : nat) :
  k ≤ n →
  length (MoreSamples.first_positions g n k) = k ∧
  NoDup (MoreSamples.first_positions g n k) ∧
  Forall (λ i, i < n) (MoreSamples.first_positions g n k).
Proof.
  intros Hk. unfold MoreSamples.first_positions. split; [apply length_seq|].
  split; [apply NoDup_seq|]. apply Forall_forall. intros i Hi%elem_of_seq. lia.
Qed.

Lemma log_samples_outcome_sample :
  (length Sample.three_pairs < 3 →
     log_samples MoreSamples.first_positions () Sample.three_pairs
     = Raise (ValueError "Sample larger than population or is negative")) ∧
  (3 ≤ length Sample.three_pairs →
     ∃ indices logged,
       log_samples MoreSamples.first_positions () Sample.three_pairs = Ok logged ∧
       length logged = 3 ∧
       NoDup indices ∧
       Forall2 (λ i row, Sample.three_pairs !! i = Some row) indices logged).
Proof.
  apply (log_samples_outcome MoreSamples.first_positions first_positions_draws).
Defined.

Lemma at_least_four_records_sample :
  (∃ train test,
     dataset_dict Sample.seeded Sample.reversing 7
       [Sample.full_record; Sample.partial_record; Sample.full_record]
       = Ok (train, test) ∧
     ∀ (B : Type) (apply_chat_template : nat * stored → result B) (g : unit),
     ∃ e, templated_and_logged MoreSamples.first_positions apply_chat_template g
            (train, test) = Raise e) ∧
  (∃ train test,
     dataset_dict Sample.seeded Sample.reversing 7 MoreSamples.four_records
       = Ok (train, test) ∧
     ∀ (B : Type) (apply_chat_template : nat * stored → result B) (g : unit),
     (∀ row, ∃ text, apply_chat_template row = Ok text) →
     ∃ train' test' logged,
       templated_and_logged MoreSamples.first_positions apply_chat_template g
         (train, test) = Ok ((train', test'), logged) ∧
       length train' = 3 ∧
       length test' = 1 ∧
       length logged = 3).
Proof.
  split.
  - destruct (at_least_four_records Sample.seeded Sample.reversing
                MoreSamples.first_positions reversing_shuffles first_positions_draws
                7 [Sample.full_record; Sample.partial_record; Sample.full_record]
                (full_record_text _))
      as (train & test & Hdict & Hsmall & _); [simpl; lia|].
    exists train, test. split; [exact Hdict|]. apply Hsmall. simpl. lia.
  - destruct (at_least_four_records Sample.seeded Sample.reversing
                MoreSamples.first_positions reversing_shuffles first_positions_draws
                7 MoreSamples.four_records four_records_text)
      as (train & test & Hdict & _ & Hbig); [simpl; lia|].
    exists train, test. split; [exact Hdict|]. apply Hbig. simpl. lia.
Defined.

End SamplesFacts.

(** ** More on the command line *)

Module CliMore.
Import Frame Cli Spec CliFacts.
Local Open Scope list_scope.
Local Arguments String.prefix : simpl never.
Local Arguments split_eq : simpl never.

(** The option part of an argument that names the data path starts with
    [--d], and so does the argument. *)
Lemma names_data_path_shape t :
  names_data_path t = true →
  ∃ r, t = String "-" (String "-" r) ∧
       String.prefix (fst (split_eq r)) "help" = false ∧
       String.prefix (fst (split_eq r)) "data_path" = true.
Proof.
  unfold names_data_path. intros [H1 H2]%andb_prop.
  destruct t as [|c0 t]; [done|]. rewrite split_eq_cons in H1, H2.
  destruct (Ascii.eqb_spec c0 "=") as [->|_]; [done|]. cbn [fst] in H1, H2.
  rewrite prefix_cons in H1. destruct (ascii_dec "-" c0) as [<-|]; [|done].
  destruct t as [|c1 t]; [done|]. rewrite split_eq_cons in H1, H2.
  destruct (Ascii.eqb_spec c1 "=") as [->|_]; [done|]. cbn [fst] in H1, H2.
  rewrite prefix_cons in H1. destruct (ascii_dec "-" c1) as [<-|]; [|done].
  exists t. split; [done|].
  change (String.prefix (String "-" (String "-" (split_eq t).1)) "--data_path")
    with (String.prefix (split_eq t).1 "data_path") in H2.
  split; [|done].
  destruct ((split_eq t).1) as [|c2 b]; [done|].
  rewrite prefix_cons in H1. destruct (ascii_dec "d" c2) as [<-|]; [|done].
  done.
Qed.

Lemma names_data_path_selects t :
  names_data_path t = true →
  parse_optional t = Optional (Some DataPath) (snd (split_eq t)).
Proof.
  intros Hn. destruct (names_data_path_shape t Hn) as (r & -> & Hh & Hd).
  unfold parse_optional.
  change (negb (Ascii.eqb "-" "-")) with false. cbv iota.
  destruct (lookup_action (String "-" (String "-" r)) option_string_actions) as [a|] eqn:Hl.
  { rewrite lookup_action_table in Hl.
    destruct (String.eqb_spec (String "-" (String "-" r)) "-h") as [?|_]; [done|].
    destruct (String.eqb_spec (String "-" (String "-" r)) "--help") as [[= ->]|_]; [done|].
    destruct (String.eqb_spec (String "-" (String "-" r)) "--data_path") as [[= ->]|_]; [|done].
    by injection Hl as <-. }
  rewrite split_eq_dashes.
  destruct (if contains "=" (String "-" (String "-" r))
            then lookup_action (String "-" (String "-" (split_eq r).1)) option_string_actions
            else None) as [a|] eqn:Hl'.
  { destruct (contains "=" _); [|done].
    rewrite lookup_action_table in Hl'.
    destruct (String.eqb_spec (String "-" (String "-" (split_eq r).1)) "-h") as [?|_]; [done|].
    destruct (String.eqb_spec (String "-" (String "-" (split_eq r).1)) "--help")
      as [[= Heq]|_]; [by rewrite Heq in Hh|].
    destruct (String.eqb_spec (String "-" (String "-" (split_eq r).1)) "--data_path")
      as [_|_]; [|done].
    by injection Hl' as <-. }
  rewrite get_option_tuples_dashes, Hh, Hd. done.
Qed.

(** X10.  An argument selects the action of [--data_path] exactly when its
    part before the first [=] is a prefix of [--data_path] that is at least
    [--d] long, and the explicit value it then carries is what follows that
    [=]. *)
Theorem selects_data_path_iff (arg : string) (explicit_arg : option string) :
  parse_optional arg = Optional (Some DataPath) explicit_arg ↔
  names_data_path arg = true ∧ explicit_arg = snd (split_eq arg).
Proof.
  split; [apply parse_optional_data_path|].
  intros [Hn ->]. by apply names_data_path_selects.
Qed.

Lemma finish_Parsed_inv dp0 extras dp remaining :
  finish dp0 extras = Parsed dp remaining → dp0 = Some dp ∧ remaining = extras.
Proof. destruct dp0; simpl; [by intros [= -> ->] | done]. Qed.

(** What is set aside is kept in order, after what was set aside before. *)
Lemma consume_sublist n : ∀ args dp0 extras dp remaining,
  (length args ≤ n)%nat →
  consume args dp0 extras = Parsed dp remaining →
  ∃ kept, remaining = extras ++ kept ∧ kept `sublist_of` args.
Proof.
  induction n as [|n IH]; intros args dp0 extras dp remaining Hlen H.
  { destruct args; [|simpl in Hlen; lia].
    apply finish_Parsed_inv in H as [_ ->]. exists []. by rewrite app_nil_r. }
  destruct args as [|arg rest].
  { apply finish_Parsed_inv in H as [_ ->]. exists []. by rewrite app_nil_r. }
  simpl in Hlen. rewrite consume_cons in H.
  destruct (String.eqb arg "--").
  { apply finish_Parsed_inv in H as [_ ->]. by exists (arg :: rest). }
  assert (∀ dp1, consume rest dp1 (extras ++ [arg]) = Parsed dp remaining →
            ∃ kept, remaining = extras ++ kept ∧ kept `sublist_of` arg :: rest) as Hkeep.
  { intros dp1 H1. destruct (IH rest dp1 _ dp remaining ltac:(lia) H1) as (kept & -> & Hsub).
    exists (arg :: kept). rewrite <- app_assoc. split; [done|]. by apply sublist_skip. }
  assert (∀ dp1 rest1, rest1 `sublist_of` rest →
            (length rest1 ≤ n)%nat →
            consume rest1 dp1 extras = Parsed dp remaining →
            ∃ kept, remaining = extras ++ kept ∧ kept `sublist_of` arg :: rest) as Hdrop.
  { intros dp1 rest1 Hsub1 Hlen1 H1.
    destruct (IH rest1 dp1 _ dp remaining Hlen1 H1) as (kept & -> & Hsub).
    exists kept. split; [done|]. apply sublist_cons. by etrans. }
  destruct (parse_optional arg) as [|[[|]|] [v|]|]; try done; eauto.
  - apply (Hdrop (Some v) rest); [done | lia | done].
  - destruct rest as [|v rest']; [done|].
    destruct (String.eqb v "--"); [done|].
    destruct (parse_optional v); try done.
    simpl in Hlen. apply (Hdrop (Some v) rest'); [by apply sublist_cons | lia | done].
Qed.

(** X11.  The arguments handed on to the configuration parser (line 65)
    are arguments of the command line, in the order they had there: nothing
    is invented, repeated or reordered. *)
Theorem remaining_is_sublist (argv : list string) (data_path : string)
    (remaining : list string) :
  parse_known_args argv = Parsed data_path remaining →
  remaining `sublist_of` argv.
Proof.
  intros H. by destruct (consume_sublist (length argv) argv None [] _ _ (le_n _) H)
    as (kept & -> & Hsub).
Qed.

Lemma remaining_is_sublist_sample :
  ["--output_dir"; "out"; "recipe.yaml"]
    `sublist_of` ["--output_dir"; "out"; "--data_path"; "train.jsonl"; "recipe.yaml"].
Proof.
  apply (remaining_is_sublist _ "train.jsonl"). reflexivity.
Defined.

(** The loop carries its state across a prefix that parses on its own. *)
Lemma consume_app n : ∀ before rest dp0 extras dp extras',
  (length before ≤ n)%nat →
  "--" ∉ before →
  consume before dp0 extras = Parsed dp extras' →
  consume (before ++ rest) dp0 extras = consume rest (Some dp) extras'.
Proof.
  induction n as [|n IH]; intros before rest dp0 extras dp extras' Hlen Hsep H.
  { destruct before; [|simpl in Hlen; lia].
    by apply finish_Parsed_inv in H as [-> ->]. }
  destruct before as [|arg before].
  { by apply finish_Parsed_inv in H as [-> ->]. }
  simpl in Hlen. apply not_elem_of_cons in Hsep as [Harg Hsep].
  rewrite <- app_comm_cons, consume_cons. rewrite consume_cons in H.
  apply not_eq_sym, String.eqb_neq in Harg. rewrite Harg in H |- *.
  destruct (parse_optional arg) as [|[[|]|] [v|]|]; try done;
    try (apply IH; [lia | done | done]).
  destruct before as [|v before']; [done|]. rewrite <- app_comm_cons.
  apply not_elem_of_cons in Hsep as [Hv Hsep].
  apply not_eq_sym, String.eqb_neq in Hv. rewrite Hv in H |- *.
  destruct (parse_optional v); try done.
  simpl in Hlen. apply IH; [lia | done | done].
Qed.

(** X12.  A later [--data_path] replaces an earlier one.  Take a command
    line that parses on its own and has no [--], and add to it one more
    data-path option followed by arguments that are none of this parser's
    options.  Written [--data_path=PATH], with any PATH, it makes PATH the
    data path and leaves the arguments handed on as they were, with the new
    ones after them; written as the two arguments [--data_path PATH] it does
    the same for every PATH that does not begin with a dash. *)
Theorem last_data_path_wins (before after : list string) (earlier path : string)
    (remaining : list string) :
  parse_known_args before = Parsed earlier remaining →
  "--" ∉ before →
  Forall passed_through after →
  parse_known_args (before ++ ("--data_path=" +:+ path) :: after)
    = Parsed path (remaining ++ after) ∧
  (Vocabulary.begins_with_dash path = false →
   parse_known_args (before ++ "--data_path" :: path :: after)
     = Parsed path (remaining ++ after)).
Proof.
  intros Hbefore Hsep Hafter. unfold parse_known_args. split.
  - rewrite (consume_app (length before) before _ None [] earlier remaining); [|done..].
    by apply consume_data_path_eq.
  - intros [Hpos Hpath]%no_dash_positional.
    rewrite (consume_app (length before) before _ None [] earlier remaining); [|done..].
    by apply consume_data_path.
Qed.

Lemma last_data_path_wins_sample :
  parse_known_args (["--data_path"; "old.jsonl"; "recipe.yaml"]
                    ++ "--data_path=-x.jsonl" :: ["--seed=1"])
    = Parsed "-x.jsonl" (["recipe.yaml"] ++ ["--seed=1"]) ∧
  parse_known_args (["--data_path"; "old.jsonl"; "recipe.yaml"]
                    ++ "--data_path" :: "train.jsonl" :: ["--seed=1"])
    = Parsed "train.jsonl" (["recipe.yaml"] ++ ["--seed=1"]).
Proof.
  assert ("--" ∉ ["--data_path"; "old.jsonl"; "recipe.yaml"]) as Hsep.
  { intros Hin. repeat (apply elem_of_cons in Hin as [Hin|Hin]; [discriminate|]).
    by apply elem_of_nil in Hin. }
  assert (Forall passed_through ["--seed=1"]) as Hafter.
  { apply Forall_cons. split; [|apply Forall_nil_2].
    split; [discriminate|]. right. by eexists. }
  split.
  - exact (proj1 (last_data_path_wins ["--data_path"; "old.jsonl"; "recipe.yaml"]
                    ["--seed=1"] "old.jsonl" "-x.jsonl" ["recipe.yaml"]
                    eq_refl Hsep Hafter)).
  - exact (proj2 (last_data_path_wins ["--data_path"; "old.jsonl"; "recipe.yaml"]
                    ["--seed=1"] "old.jsonl" "train.jsonl" ["recipe.yaml"]
                    eq_refl Hsep Hafter) eq_refl).
Defined.

(** An argument that asks for help ends the run wherever it stands before
    the first [--]. *)
Lemma consume_help n : ∀ before help e after dp extras,
  (length before ≤ n)%nat →
  "--" ∉ before →
  parse_optional help = Optional (Some Help) e →
  consume (before ++ help :: after) dp extras = SystemExit.
Proof.
  induction n as [|n IH]; intros before help e after dp extras Hlen Hsep Hhelp.
  { destruct before; [|simpl in Hlen; lia].
    rewrite app_nil_l, consume_cons, Hhelp.
    by destruct (String.eqb_spec help "--") as [->|_]. }
  destruct before as [|arg before].
  { rewrite app_nil_l, consume_cons, Hhelp.
    by destruct (String.eqb_spec help "--") as [->|_]. }
  simpl in Hlen. apply not_elem_of_cons in Hsep as [Harg Hsep].
  rewrite <- app_comm_cons, consume_cons.
  apply not_eq_sym, String.eqb_neq in Harg. rewrite Harg.
  destruct (parse_optional arg) as [|[[|]|] [v|]|]; try done;
    try (eapply IH; [lia | done | done]).
  destruct before as [|v before'].
  { rewrite app_nil_l, Hhelp. by destruct (String.eqb help "--"). }
  rewrite <- app_comm_cons.
  apply not_elem_of_cons in Hsep as [Hv Hsep].
  apply not_eq_sym, String.eqb_neq in Hv. rewrite Hv.
  destruct (parse_optional v); try done.
  simpl in Hlen. eapply IH; [lia | done | done].
Qed.

(** X13.  [-h] or [--help] anywhere before a [--] ends the run in
    [SystemExit]; no file is read, whatever else the command line holds. *)
Theorem help_exits {config : Type} (h4_parse : list string → option config)
    (fs : string → option (list record)) (before after : list string) (help : string) :
  help = "-h" ∨ help = "--help" →
  "--" ∉ before →
  parse_known_args (before ++ help :: after) = SystemExit ∧
  main_load h4_parse fs (before ++ help :: after) = Exited.
Proof.
  intros Hhelp Hsep.
  assert (parse_known_args (before ++ help :: after) = SystemExit) as Hexit.
  { unfold parse_known_args.
    apply (consume_help (length before) before help None); [done | done |].
    by destruct Hhelp as [-> | ->]. }
  split; [done|]. unfold main_load. by rewrite Hexit.
Qed.

Lemma help_exits_sample :
  parse_known_args (["--data_path"; "train.jsonl"] ++ "--help" :: ["recipe.yaml"])
    = SystemExit ∧
  main_load (λ _, Some ()) Sample.files
    (["--data_path"; "train.jsonl"] ++ "--help" :: ["recipe.yaml"]) = Exited.
Proof.
  apply (help_exits (λ _, Some ()) Sample.files).
  - by right.
  - intros Hin. repeat (apply elem_of_cons in Hin as [Hin|Hin]; [discriminate|]).
    by apply elem_of_nil in Hin.
Defined.

Lemma consume_separator n : ∀ before after dp extras,
  (length before ≤ n)%nat →
  consume (before ++ "--" :: after) dp extras =
  match consume before dp extras with
  | Parsed path remaining => Parsed path (remaining ++ "--" :: after)
  | SystemExit => SystemExit
  end.
Proof.
  induction n as [|n IH]; intros before after dp extras Hlen.
  { destruct before; [|simpl in Hlen; lia]. by destruct dp. }
  destruct before as [|arg before]; [by destruct dp|].
  simpl in Hlen. rewrite <- app_comm_cons, !consume_cons.
  destruct (String.eqb arg "--").
  { destruct dp; [|done]. simpl. by rewrite <- !app_assoc. }
  destruct (parse_optional arg) as [|[[|]|] [v|]|]; try done;
    try (apply IH; lia).
  destruct before as [|v before']; [done|]. rewrite <- app_comm_cons.
  destruct (String.eqb v "--"); [done|].
  destruct (parse_optional v); try done.
  simpl in Hlen. apply IH; lia.
Qed.

(** X14.  Everything from a [--] on is none of this parser's business:
    the command line parses as its part before the [--] does, and the [--]
    with all that follows it is handed on to the configuration parser
    untouched. *)
Theorem separator_passes_through (before after : list string) :
  parse_known_args (before ++ "--" :: after) =
  match parse_known_args before with
  | Parsed path remaining => Parsed path (remaining ++ "--" :: after)
  | SystemExit => SystemExit
  end.
Proof. apply (consume_separator (length before)). done. Qed.

End CliMore.

(** ** Settings *)

Module SetupFacts.
Import Setup Resume.


Lemma prefix_app_iff p s : String.prefix p s = true ↔ ∃ post, s = p +:+ post.
Proof.
  revert s. induction p as [|c p IH]; intros s.
  - split; [by exists s | by destruct s].
  - destruct s as [|c' s].
    + split; [done | by intros [post ?]].
    + change (String.prefix (String c p) (String c' s))
        with (if ascii_dec c c' then String.prefix p s else false).
      destruct (ascii_dec c c') as [->|Hne].
      * rewrite IH. split; intros [post H]; exists post.
        -- by rewrite H.
        -- by injection H.
      * split; [done|]. intros [post H]. injection H as H _. by destruct Hne.
Qed.

Lemma str_in_cons needle c hay :
  str_in needle (String c hay) = String.prefix needle (String c hay) || str_in needle hay.
Proof. reflexivity. Qed.

Lemma str_in_iff needle hay :
  str_in needle hay = true ↔ ∃ pre post, hay = pre +:+ needle +:+ post.
Proof.
  induction hay as [|c hay IH].
  - change (str_in needle "") with (String.prefix needle "" || false).
    rewrite orb_false_r, prefix_app_iff. split.
    + intros [post H]. by exists "", post.
    + intros (pre & post & H). destruct pre; [by exists post|done].
  - rewrite str_in_cons, orb_true_iff, prefix_app_iff, IH. split.
    + intros [[post H]|(pre & post & H)].
      * by exists "", post.
      * exists (String c pre), post. by rewrite H.
    + intros (pre & post & H). destruct pre as [|c' pre].
      * left. by exists post.
      * right. injection H as _ H. by exists pre, post.
Qed.

(** X16.  The attention implementation is [eager] exactly when the text
    [gemma], in lower case, occurs somewhere in the model name or path, and
    [flash_attention_2] in every other case. *)
Theorem attn_implementation_choice (model_name_or_path : string) :
  ((attn_implementation model_name_or_path = "eager") ↔
   (∃ pre post, model_name_or_path = pre +:+ "gemma" +:+ post)) ∧
  (attn_implementation model_name_or_path ≠ "eager" →
   attn_implementation model_name_or_path = "flash_attention_2").
Proof.
  unfold attn_implementation. rewrite <- str_in_iff.
  destruct (str_in "gemma" model_name_or_path); split; try done.
Qed.

End SetupFacts.

(** ** Training, saving, evaluating and uploading *)

Module RunFacts.
Import Run.
Local Open Scope list_scope.

Section with_trainer.

Context {M W : Type}.
Variable train_metrics : gmap string (metric M).
Variable eval_metrics : gmap string (metric M).


(** X18.  Every metrics dict that is logged is also saved, under the same
    split.  The train metrics carry the number of train rows under
    [train_samples] and the evaluation metrics, which only exist with
    [do_eval], the number of test rows under [eval_samples], whatever the
    trainer reported under these keys; every other metric is the
    trainer's. *)
Theorem sample_counts_recorded {A : Type} (cfg : settings W) (train test : list A)
    (split : string) (metrics : gmap string (metric M)) :
  LogMetrics split metrics ∈ (training_loop train_metrics eval_metrics cfg train test).1 →
  SaveMetrics split metrics ∈ (training_loop train_metrics eval_metrics cfg train test).1 ∧
  ((split = "train" ∧
    metrics !! "train_samples" = Some (Samples (length train)) ∧
    ∀ k, k ≠ "train_samples" → metrics !! k = train_metrics !! k)
   ∨
   (split = "eval" ∧ do_eval cfg = true ∧
    metrics !! "eval_samples" = Some (Samples (length test)) ∧
    ∀ k, k ≠ "eval_samples" → metrics !! k = eval_metrics !! k)).
Proof.
  unfold training_loop.
  assert (∀ base key n (k : string),
            k ≠ key → (<[key := Samples n]> base : gmap string (metric M)) !! k = base !! k)
    as Hother by (intros; by apply lookup_insert_ne).
  destruct (dataset_mixer cfg) as [mixer|]; cbn [fst];
    [destruct (is_main_process cfg), (do_eval cfg), (push_to_hub cfg); cbn [app]|];
    intros Hin; set_unfold in Hin; destruct_or!; simplify_eq;
    (split; [set_unfold; tauto|]);
    first [ left; split; [done|]; split; [apply lookup_insert_eq | by apply Hother]
          | right; split; [done|]; split; [done|];
            split; [apply lookup_insert_eq | by apply Hother] ].
Qed.

End with_trainer.


Lemma sample_counts_recorded_sample :
  SaveMetrics "eval" (<["eval_samples" := Samples 1]> (∅ : gmap string (metric unit)))
    ∈ (training_loop ∅ ∅ MoreSamples.with_mixer
         Sample.three_pairs (take 1 Sample.three_pairs)).1 ∧
  (("eval" = "train" ∧
    (<["eval_samples" := Samples 1]> (∅ : gmap string (metric unit))) !! "train_samples"
      = Some (Samples (length Sample.three_pairs)) ∧
    ∀ k, k ≠ "train_samples" →
      (<["eval_samples" := Samples 1]> (∅ : gmap string (metric unit))) !! k
      = (∅ : gmap string (metric unit)) !! k)
   ∨
   ("eval" = "eval" ∧ Run.do_eval MoreSamples.with_mixer = true ∧
    (<["eval_samples" := Samples 1]> (∅ : gmap string (metric unit))) !! "eval_samples"
      = Some (Samples (length (take 1 Sample.three_pairs))) ∧
    ∀ k, k ≠ "eval_samples" →
      (<["eval_samples" := Samples 1]> (∅ : gmap string (metric unit))) !! k
      = (∅ : gmap string (metric unit)) !! k)).
Proof.
  apply (sample_counts_recorded ∅ ∅ MoreSamples.with_mixer
           Sample.three_pairs (take 1 Sample.three_pairs)).
  cbn. repeat first [apply list_elem_of_here | apply list_elem_of_further].
Defined.

End RunFacts.
